(** * Credential resolution and tool dispatch of the universal Facebook Ads
      server (10xer): a shallow embedding and its properties.

    The embedded code is the class [UniversalFacebookAdsServer] of the
    server's entry file (its methods [fetchLatestFacebookAccessToken],
    [fetchFacebookAccessToken], [askOrganizationId], [sendMessageToUser],
    [waitForUserResponse], [resolveUserIdFromSessionOrOrg],
    [executeToolCall] and the POST /trigger-token-fetch route) together
    with the static catalogue [TOOL_SCHEMAS] of schemas/tool-schemas.js.

    JavaScript values are modelled by a small value type; the server object
    and the Node runtime (promises, timers, event log) by an explicit state
    threaded through a state-and-exception monad; everything the file
    imports but does not define (fetch, tool handlers, TokenStorage,
    getLocalIPv4, process.env) is collected in a [World] record, each
    awaited call with the three ways it can go: it resolves, it rejects,
    or it never settles. *)

From stdpp Require Import gmap strings list pretty.
From Stdlib Require Import ZArith Ascii.

Set Warnings "-register-all".

(* ===================================================================== *)
(** ** JavaScript values                                                  *)
(* ===================================================================== *)

Module JS.

(** The values that flow through the modelled code: JSON data plus
    [undefined].  Numbers are integers (no tool argument or service reply
    the claims look at is fractional): [JNum n] is the number the literal
    [n] denotes, that is the double nearest to [n].  Objects are plain
    objects (prototype [Object.prototype], data properties only) and keep
    their keys in insertion order, as [Object.keys] observes it. *)
Inductive jsval : Type :=
  | JUndefined
  | JNull
  | JBool (b : bool)
  | JNum (n : Z)
  | JStr (s : string)
  | JArr (xs : list jsval)
  | JObj (fields : list (string * jsval)).

(** Thrown values.  [ErrorObj m] is [new Error(m)]; the other constructors
    are the built-in error classes the runtime raises by itself. *)
Inductive jserror : Type :=
  | ErrorObj (message : string)
  | TypeErrorObj (message : string)
  | ReferenceErrorObj (message : string)
  | SyntaxErrorObj (message : string).

Definition message_of (e : jserror) : string :=
  match e with
  | ErrorObj m | TypeErrorObj m | ReferenceErrorObj m | SyntaxErrorObj m => m
  end.

(** [if (v)], [!v], [a || b], [a && b] all go through ToBoolean. *)
Definition truthy (v : jsval) : bool :=
  match v with
  | JUndefined | JNull => false
  | JBool b => b
  | JNum n => negb (n =? 0)%Z
  | JStr s => negb (String.eqb s "")
  | JArr _ | JObj _ => true
  end.

(** [a || b] on values. *)
Definition js_or (a b : jsval) : jsval := if truthy a then a else b.

Fixpoint assoc (k : string) (fields : list (string * jsval)) : jsval :=
  match fields with
  | [] => JUndefined
  | (k', v) :: rest => if String.eqb k k' then v else assoc k rest
  end.

(** Property read [v.k]: a TypeError on [undefined] and [null], the own
    property on an object, [undefined] on everything else (none of the
    names read by the modelled code is a built-in of a primitive). *)
Definition get_prop (v : jsval) (k : string) : jsval + jserror :=
  match v with
  | JUndefined =>
      inr (TypeErrorObj ("Cannot read properties of undefined (reading '" +:+ k +:+ "')"))
  | JNull =>
      inr (TypeErrorObj ("Cannot read properties of null (reading '" +:+ k +:+ "')"))
  | JObj fields => inl (assoc k fields)
  | _ => inl JUndefined
  end.

(** Optional chaining [v?.k]. *)
Definition get_prop_opt (v : jsval) (k : string) : jsval :=
  match v with
  | JObj fields => assoc k fields
  | _ => JUndefined
  end.

(** *** Number to string

    [Number.prototype.toString] on the double nearest to an integer: the
    shortest digit string that reads back as the same double, written out
    in full below 10^21 and in exponent notation from there on. *)

(** The double nearest to the integer [n >= 0] (round to nearest, ties to
    even), [None] when it is beyond the largest finite double. *)
Definition nearest_double (n : Z) : option Z :=
  if (n <? 2 ^ 53)%Z then Some n
  else
    let shift := (Z.log2 n - 52)%Z in
    let q := Z.shiftr n shift in
    let r := (n - Z.shiftl q shift)%Z in
    let half := Z.shiftl 1 (shift - 1) in
    let q' := if (half <? r)%Z || ((r =? half)%Z && Z.odd q) then (q + 1)%Z else q in
    let x := Z.shiftl q' shift in
    if (2 ^ 1024 <=? x)%Z then None else Some x.

(** The pairs [(s, n)] with [s] of [k] digits such that [s * 10^(n-k)]
    reads back as the double [x] of [d] decimal digits; only the
    multiples of [10^(n-k)] next to [x] can be closest to it. *)
Definition digit_candidates (x d k : Z) : list (Z * Z) :=
  List.filter
    (fun c : Z * Z =>
       let (s, n) := c in
       (10 ^ (k - 1) <=? s)%Z && (s <? 10 ^ k)%Z
       && match nearest_double (s * 10 ^ (n - k)) with
          | Some y => (y =? x)%Z
          | None => false
          end)
    (flat_map (fun n : Z => let lo := (x / 10 ^ (n - k))%Z in [(lo, n); ((lo + 1)%Z, n)])
              [d; (d + 1)%Z]).

(** Of two candidates the one closer to [x], the even one on a tie. *)
Definition closer (x k : Z) (a b : Z * Z) : Z * Z :=
  let da := Z.abs (fst a * 10 ^ (snd a - k) - x) in
  let db := Z.abs (fst b * 10 ^ (snd b - k) - x) in
  if (db <? da)%Z then b
  else if (da <? db)%Z then a
  else if Z.even (fst a) then a else b.

(** The digits [s], their number [k] and the decimal exponent [n] for
    the least [k] among [ks] that has a candidate. *)
Fixpoint shortest_digits (x d : Z) (ks : list Z) : option (Z * Z * Z) :=
  match ks with
  | [] => None
  | k :: rest =>
      match digit_candidates x d k with
      | c :: cs => let (s, n) := fold_left (closer x k) cs c in Some (s, k, n)
      | [] => shortest_digits x d rest
      end
  end.

Definition zeros (n : Z) : string := String.concat "" (replicate (Z.to_nat n) "0").

Definition double_to_string (x : Z) : string :=
  let d := Z.of_nat (String.length (pretty x)) in
  match shortest_digits x d (map Z.of_nat (seq 1 17)) with
  | None => pretty x
  | Some (s, k, n) =>
      let digits := pretty s in
      if (n <=? 21)%Z then digits +:+ zeros (n - k)
      else
        match digits with
        | String c EmptyString => String c EmptyString +:+ "e+" +:+ pretty (n - 1)%Z
        | String c rest => String c EmptyString +:+ "." +:+ rest +:+ "e+" +:+ pretty (n - 1)%Z
        | EmptyString => ""
        end
  end.

(** [isFinite(n)] *)
Definition is_finite (n : Z) : bool :=
  match nearest_double (Z.abs n) with
  | Some _ => true
  | None => false
  end.

(** [String(n)] for a number; integers below 2^53 are doubles and print
    as they are. *)
Definition number_to_string (n : Z) : string :=
  if (Z.abs n <? 2 ^ 53)%Z then pretty n
  else
    (if (n <? 0)%Z then "-" else "") +:+
    match nearest_double (Z.abs n) with
    | None => "Infinity"
    | Some x => double_to_string x
    end.

(** *** String conversion inside a template literal [`${v}`]

    The conversion calls [toString] of an object.  A plain object
    inherits the one of [Object.prototype] unless it has an own property
    of that name; such a property of JSON data is no function, so the
    conversion falls back on [valueOf], gets the object itself, and
    throws.  An array joins the conversions of its elements. *)

Definition has_own (k : string) (fields : list (string * jsval)) : bool :=
  existsb (fun p : string * jsval => String.eqb (fst p) k) fields.

(** The error the conversion of [v] throws, if it throws. *)
Fixpoint template_error (v : jsval) : option jserror :=
  match v with
  | JObj fields =>
      if has_own "toString" fields
      then Some (TypeErrorObj "Cannot convert object to primitive value")
      else None
  | JArr xs =>
      (fix first (l : list jsval) : option jserror :=
         match l with
         | [] => None
         | x :: rest =>
             match template_error x with
             | Some e => Some e
             | None => first rest
             end
         end) xs
  | _ => None
  end.

(** The string the conversion gives when it does not throw. *)
Fixpoint to_template_string (v : jsval) : string :=
  match v with
  | JUndefined => "undefined"
  | JNull => "null"
  | JBool true => "true"
  | JBool false => "false"
  | JNum n => number_to_string n
  | JStr s => s
  | JArr xs =>
      (fix join (l : list jsval) : string :=
         match l with
         | [] => ""
         | x :: rest =>
             let sx := match x with
                       | JUndefined | JNull => ""
                       | _ => to_template_string x
                       end in
             match rest with
             | [] => sx
             | _ :: _ => sx +:+ "," +:+ join rest
             end
         end) xs
  | JObj _ => "[object Object]"
  end.

(** Strict equality [v === s] against a string. *)
Definition strict_eq_string (v : jsval) (s : string) : bool :=
  match v with
  | JStr s' => String.eqb s' s
  | _ => false
  end.

Definition of_option_string (o : option string) : jsval :=
  match o with
  | Some s => JStr s
  | None => JUndefined
  end.

End JS.
Export JS.

(* ===================================================================== *)
(** ** The outside world                                                  *)
(* ===================================================================== *)

(** An awaited call either returns, throws (its promise rejects), or stays
    suspended because the promise it awaits is never settled. *)
Inductive outcome (A : Type) : Type :=
  | Returned (a : A)
  | Threw (e : jserror)
  | Suspended.
Arguments Returned {A} a.
Arguments Threw {A} e.
Arguments Suspended {A}.

(** A call of [fetch(url, init)].  [req_body] is the object handed to
    [JSON.stringify] for the request body, [None] when no body is sent. *)
Record HttpRequest : Type := mkRequest {
  req_url : string;
  req_method : string;
  req_headers : list (string * jsval);
  req_body : option jsval
}.

(** What [fetch] resolves to.  [json_body = None] stands for a body from
    which [res.json()] gets no value. *)
Record HttpResponse : Type := mkResponse {
  status : N;
  statusText : string;
  json_body : option jsval
}.

(** [Response.ok]: the status is in the range 200-299. *)
Definition ok (r : HttpResponse) : bool :=
  (200 <=? status r)%N && (status r <=? 299)%N.

(** What [await fetch(...)] does: it resolves to a response, rejects, or
    never settles (the code sets no timeout and passes no abort
    signal). *)
Inductive FetchOutcome : Type :=
  | Responded (r : HttpResponse)
  | NetworkFailure (message : string)
  | NoAnswer.

(** Everything the entry file uses without defining it: the process
    environment, the network, the imported tool handlers
    (./tools/*.js), [TokenStorage] (./auth/token-storage.js),
    [getLocalIPv4] (./utils/network.js) and the clock.  The imported
    functions are async and awaited by the code; each is given by the
    outcome of that await.  [json_failure] is what [await res.json()]
    does on a response without a JSON value: the error it rejects with
    (a SyntaxError for a body that does not parse), or [None] when the
    body never arrives. *)
Record World : Type := mkWorld {
  env_FACEBOOK_ACCESS_TOKEN : option string;
  env_DEPLOYED_URL : option string;
  fetch : HttpRequest -> FetchOutcome;
  json_failure : HttpResponse -> option jserror;
  TokenStorage_getToken : outcome jsval;
  listAdAccounts : jsval -> jsval -> outcome jsval;
  fetchPaginationUrl : jsval -> jsval -> outcome jsval;
  getAccountDetails : jsval -> jsval -> outcome jsval;
  getAccountInsights : jsval -> jsval -> outcome jsval;
  getAccountActivities : jsval -> jsval -> outcome jsval;
  getAdCreatives : jsval -> jsval -> outcome jsval;
  getLocalIPv4 : outcome jsval;
  Date_now : Z
}.

(** Observable interactions, in the order they happen: the calls of
    [fetch], the calls of a tool handler, the events emitted on the
    message bus. *)
Inductive Event : Type :=
  | EvFetch (r : HttpRequest)
  | EvHandler (tool : string) (args token : jsval)
  | EvEmit (channel : string) (payload : jsval).

(* ===================================================================== *)
(** ** The server object and the runtime                                  *)
(* ===================================================================== *)

(** The SDK's SSE transport, of which the code reads [sessionId] only. *)
Record SSEServerTransport : Type := mkTransport {
  sessionId : option string
}.

(** The closure [onUserMessage] created by one call of
    [waitForUserResponse]: it captures the session id and the [resolve] of
    the promise of that call, identified by [l_wait]. *)
Record Listener : Type := mkListener {
  l_wait : nat;
  l_session : string
}.

(** An event emitter with the listeners of its 'user_message' channel, in
    registration order. *)
Record MessageBus : Type := mkBus {
  user_message_listeners : list Listener
}.

(** A pending [setTimeout] callback of [waitForUserResponse]. *)
Record Timer : Type := mkTimer {
  t_wait : nat;
  t_delay : Z
}.

Inductive PromiseState : Type :=
  | Pending
  | Fulfilled (v : jsval)
  | Rejected (e : jserror).

(** The fields of [this] that the modelled methods read or write.  The
    session registry is a JS [Map]; its keys are the values of
    [this.activeSseTransport?.sessionId], a string or [undefined]
    ([None]). *)
Record Server : Type := mkServer {
  currentFacebookAccessToken : jsval;
  sessionUserMap : gmap (option string) jsval;
  activeSseTransport : option SSEServerTransport;
  messageBus : option MessageBus
}.

(** What a message on the bus or the timer queue can do to a suspended
    call. *)
Inductive BusEvent : Type :=
  | UserMessage (msg_sessionId msg_content : jsval)
  | TimerExpires (wait : nat).

(** The server object together with the runtime around it: the promises
    created by [waitForUserResponse] (indexed by creation order), the
    pending timers, the bus events still to be delivered, and the log of
    interactions so far. *)
Record Runtime : Type := mkRuntime {
  this : Server;
  promises : list PromiseState;
  timers : list Timer;
  inbox : list BusEvent;
  trace : list Event
}.

(** The state the class constructor leaves: no token, an empty registry,
    and neither [activeSseTransport] nor [messageBus] assigned (the route
    GET /mcp assigns the former; nothing in the file assigns the
    latter). *)
Definition constructor : Server :=
  {| currentFacebookAccessToken := JNull;
     sessionUserMap := ∅;
     activeSseTransport := None;
     messageBus := None |}.

Definition boot : Runtime :=
  {| this := constructor; promises := []; timers := []; inbox := []; trace := [] |}.

Definition set_this (s : Server) (rt : Runtime) : Runtime :=
  {| this := s; promises := promises rt; timers := timers rt;
     inbox := inbox rt; trace := trace rt |}.

Definition set_currentFacebookAccessToken (v : jsval) (s : Server) : Server :=
  {| currentFacebookAccessToken := v;
     sessionUserMap := sessionUserMap s;
     activeSseTransport := activeSseTransport s;
     messageBus := messageBus s |}.

Definition set_sessionUserMap (m : gmap (option string) jsval) (s : Server) : Server :=
  {| currentFacebookAccessToken := currentFacebookAccessToken s;
     sessionUserMap := m;
     activeSseTransport := activeSseTransport s;
     messageBus := messageBus s |}.

Definition set_activeSseTransport (t : option SSEServerTransport) (s : Server) : Server :=
  {| currentFacebookAccessToken := currentFacebookAccessToken s;
     sessionUserMap := sessionUserMap s;
     activeSseTransport := t;
     messageBus := messageBus s |}.

Definition set_messageBus (b : option MessageBus) (s : Server) : Server :=
  {| currentFacebookAccessToken := currentFacebookAccessToken s;
     sessionUserMap := sessionUserMap s;
     activeSseTransport := activeSseTransport s;
     messageBus := b |}.

Definition push_event (e : Event) (rt : Runtime) : Runtime :=
  {| this := this rt; promises := promises rt; timers := timers rt;
     inbox := inbox rt; trace := trace rt ++ [e] |}.

(** [this.activeSseTransport?.sessionId] *)
Definition active_sessionId (s : Server) : option string :=
  match activeSseTransport s with
  | Some t => sessionId t
  | None => None
  end.

(** [!this.activeSseTransport || !this.activeSseTransport.sessionId]
    negated: the string to use as session id when there is one. *)
Definition live_session (s : Server) : option string :=
  match active_sessionId s with
  | Some sid => if String.eqb sid "" then None else Some sid
  | None => None
  end.

(* ===================================================================== *)
(** ** The static tool catalogue (schemas/tool-schemas.js)                *)
(* ===================================================================== *)

Module ToolSchemas.

(** The [type] of a property: a scalar, an array with its [items], an
    object with its [properties], or a list of alternatives
    ([type: ['string', 'number']]). *)
Inductive SchemaType : Type :=
  | TString
  | TNumber
  | TBoolean
  | TArray (items : SchemaType)
  | TObject (props : list (string * SchemaType))
  | TOneOf (alternatives : list SchemaType).

(** One entry of [TOOL_SCHEMAS] (every entry has [type: 'object']).  The
    [description], [default], [minItems] and [maxItems] annotations are
    left out. *)
Record ToolSchema : Type := mkSchema {
  properties : list (string * SchemaType);
  required : list string;
  additionalProperties : bool
}.

Definition time_range_type : SchemaType :=
  TObject [("since", TString); ("until", TString)].

(** [export const TOOL_SCHEMAS = { ... }], keys in source order; the
    commented-out entries (facebook_login, facebook_logout,
    facebook_check_auth) are not part of the object. *)
Definition TOOL_SCHEMAS : list (string * ToolSchema) :=
  [ ("facebook_list_ad_accounts",
     {| properties := [("organization_id", TString)];
        required := [];
        additionalProperties := false |});
    ("facebook_fetch_pagination_url",
     {| properties := [("url", TString); ("organization_id", TString)];
        required := ["url"];
        additionalProperties := false |});
    ("facebook_get_details_of_ad_account",
     {| properties := [("act_id", TString); ("fields", TArray TString);
                       ("organization_id", TString)];
        required := ["act_id"];
        additionalProperties := false |});
    ("facebook_get_adaccount_insights",
     {| properties := [("act_id", TString); ("fields", TArray TString);
                       ("date_preset", TString); ("level", TString);
                       ("action_attribution_windows", TArray TString);
                       ("action_breakdowns", TArray TString);
                       ("breakdowns", TArray TString);
                       ("time_range", time_range_type);
                       ("limit", TNumber); ("sort", TString);
                       ("after", TString); ("before", TString);
                       ("time_increment", TOneOf [TString; TNumber]);
                       ("organization_id", TString)];
        required := ["act_id"; "fields"];
        additionalProperties := false |});
    ("facebook_get_activities_by_adaccount",
     {| properties := [("act_id", TString); ("fields", TArray TString);
                       ("since", TString); ("until", TString);
                       ("time_range", time_range_type);
                       ("limit", TNumber); ("after", TString); ("before", TString);
                       ("organization_id", TString)];
        required := ["act_id"];
        additionalProperties := false |});
    ("facebook_get_ad_creatives",
     {| properties := [("ad_ids", TArray TString); ("include_images", TBoolean);
                       ("organization_id", TString)];
        required := ["ad_ids"];
        additionalProperties := false |}) ].

(** [Object.keys(TOOL_SCHEMAS)] *)
Definition tool_names : list string := map fst TOOL_SCHEMAS.

Fixpoint lookup_schema (name : string) (cat : list (string * ToolSchema)) : option ToolSchema :=
  match cat with
  | [] => None
  | (n, sch) :: rest => if String.eqb name n then Some sch else lookup_schema name rest
  end.

Definition in_catalogue (name : string) : bool :=
  existsb (String.eqb name) tool_names.

End ToolSchemas.
Export ToolSchemas.

(* ===================================================================== *)
(** ** Async methods as state-and-exception computations                   *)
(* ===================================================================== *)

Definition M (A : Type) : Type := Runtime -> outcome A * Runtime.

Definition ret {A} (a : A) : M A := fun rt => (Returned a, rt).

Definition throw {A} (e : jserror) : M A := fun rt => (Threw e, rt).

Definition bind {A B} (c : M A) (k : A -> M B) : M B :=
  fun rt =>
    match c rt with
    | (Returned a, rt') => k a rt'
    | (Threw e, rt') => (Threw e, rt')
    | (Suspended, rt') => (Suspended, rt')
    end.

(** [try { body } catch (err) { handler }] *)
Definition try_catch {A} (body : M A) (handler : jserror -> M A) : M A :=
  fun rt =>
    match body rt with
    | (Threw e, rt') => handler e rt'
    | r => r
    end.

Definition lift {A} (r : A + jserror) : M A :=
  match r with
  | inl a => ret a
  | inr e => throw e
  end.

(** [await p] for a promise of the outside world. *)
Definition await {A} (o : outcome A) : M A := fun rt => (o, rt).

(** Evaluation of [`${v}`]. *)
Definition template (v : jsval) : M string :=
  match template_error v with
  | Some e => throw e
  | None => ret (to_template_string v)
  end.

Definition get_this : M Server := fun rt => (Returned (this rt), rt).

Definition modify_this (f : Server -> Server) : M unit :=
  fun rt => (Returned tt, set_this (f (this rt)) rt).

Definition log (e : Event) : M unit := fun rt => (Returned tt, push_event e rt).

Notation "x <- c1 ;; c2" := (bind c1 (fun x => c2))
  (at level 100, c1 at next level, right associativity).
Notation "c1 ;;; c2" := (bind c1 (fun _ => c2))
  (at level 100, right associativity).

Section Gateway.

Variable W : World.

(** [await fetch(...)]: logged, answered by the world; a failure rejects
    with a TypeError, as the fetch standard prescribes. *)
Definition do_fetch (r : HttpRequest) : M HttpResponse :=
  log (EvFetch r) ;;;
  match fetch W r with
  | Responded res => ret res
  | NetworkFailure m => throw (TypeErrorObj m)
  | NoAnswer => await Suspended
  end.

(** [await res.json()] *)
Definition res_json (res : HttpResponse) : M jsval :=
  match json_body res with
  | Some v => ret v
  | None =>
      match json_failure W res with
      | Some e => throw e
      | None => await Suspended
      end
  end.

(** [`${res.status}`] *)
Definition status_text (res : HttpResponse) : string :=
  number_to_string (Z.of_N (status res)).

(** [process.env.DEPLOYED_URL || 'https://facebook-ads-mcp-btfuv.ondigitalocean.app'] *)
Definition deployedUrl : string :=
  match env_DEPLOYED_URL W with
  | Some u => if String.eqb u "" then "https://facebook-ads-mcp-btfuv.ondigitalocean.app" else u
  | None => "https://facebook-ads-mcp-btfuv.ondigitalocean.app"
  end.

(** [this.currentFacebookAccessToken.slice(0, 10) + '...'], the argument
    of the log line after a token is stored.  Strings and arrays have the
    method, on any other truthy value the call is a TypeError; the sum
    then converts the slice of an array to a string. *)
Definition call_slice (v : jsval) : M unit :=
  match v with
  | JStr _ => ret tt
  | JArr xs => template (JArr (take 10 xs)) ;;; ret tt
  | _ => throw (TypeErrorObj "this.currentFacebookAccessToken.slice is not a function")
  end.

(** The request of [fetchLatestFacebookAccessToken]. *)
Definition token_request (sessionCookie : jsval) : HttpRequest :=
  {| req_url := deployedUrl +:+ "/mcp-api/facebook_token_by_user";
     req_method := "GET";
     req_headers := [("Cookie", sessionCookie);
                     ("Content-Type", JStr "application/json")];
     req_body := None |}.

(** [async fetchLatestFacebookAccessToken(sessionCookie)].  The
    [console.error] calls have no effect on the modelled state, except that
    the one in the success branch evaluates
    [this.currentFacebookAccessToken.slice(0, 10)]. *)
Definition fetchLatestFacebookAccessToken (sessionCookie : jsval) : M unit :=
  try_catch
    (res <- do_fetch (token_request sessionCookie) ;;
     if negb (ok res)
     then throw (ErrorObj ("Failed to fetch Facebook token: " +:+ status_text res))
     else
       data <- res_json res ;;
       success <- lift (get_prop data "success") ;;
       if truthy success && truthy (get_prop_opt data "facebook_access_token")
       then
         modify_this (set_currentFacebookAccessToken
                        (get_prop_opt data "facebook_access_token")) ;;;
         s <- get_this ;;
         call_slice (currentFacebookAccessToken s)
       else throw (ErrorObj "Token not present in response"))
    (fun err => throw err).

(** [async fetchFacebookAccessToken(userId)]: the tiered lookup the class
    also defines.  No route and no method of the file calls it (the call
    in [executeToolCall] is commented out). *)
Definition fetchFacebookAccessToken (userId : jsval) : M unit :=
  let env_token := of_option_string (env_FACEBOOK_ACCESS_TOKEN W) in
  (* 1. Check environment variable (highest priority) *)
  if truthy env_token
  then modify_this (set_currentFacebookAccessToken env_token)
  else
    (* 2. Check local TokenStorage (second priority) *)
    localToken <- await (TokenStorage_getToken W) ;;
    if truthy localToken
    then modify_this (set_currentFacebookAccessToken localToken)
    else
      (* 3. Check digitalocean/external API (third priority) *)
      if truthy userId
      then
        url <- template userId ;;
        try_catch
          (res <- do_fetch {| req_url := deployedUrl +:+ "/mcp-api/facebook_token_by_user?userId="
                                           +:+ url;
                              req_method := "GET"; req_headers := []; req_body := None |} ;;
           if negb (ok res)
           then throw (ErrorObj ("Failed to fetch Facebook token: " +:+ status_text res))
           else
             data <- res_json res ;;
             success <- lift (get_prop data "success") ;;
             if truthy success && truthy (get_prop_opt data "facebook_access_token")
             then
               modify_this (set_currentFacebookAccessToken
                              (get_prop_opt data "facebook_access_token")) ;;;
               s <- get_this ;;
               call_slice (currentFacebookAccessToken s)
             else throw (ErrorObj "Token not present in response"))
          (fun err =>
             (* Fall back to environment token if available *)
             if truthy env_token
             then modify_this (set_currentFacebookAccessToken env_token)
             else throw err)
      else throw (ErrorObj "No Facebook access token available. Please login at /facebook-auth-helper").

(* --------------------------------------------------------------------- *)
(** *** The message bus, promises and timers                              *)
(* --------------------------------------------------------------------- *)

(** [resolve(v)] / [reject(e)] of promise [p]: settles it if it is still
    pending and does nothing otherwise. *)
Definition settle (p : nat) (s : PromiseState) (ps : list PromiseState) : list PromiseState :=
  match ps !! p with
  | Some Pending => <[p := s]> ps
  | _ => ps
  end.

Definition set_promises (ps : list PromiseState) (rt : Runtime) : Runtime :=
  {| this := this rt; promises := ps; timers := timers rt;
     inbox := inbox rt; trace := trace rt |}.

Definition set_timers (ts : list Timer) (rt : Runtime) : Runtime :=
  {| this := this rt; promises := promises rt; timers := ts;
     inbox := inbox rt; trace := trace rt |}.

Definition set_inbox (evs : list BusEvent) (rt : Runtime) : Runtime :=
  {| this := this rt; promises := promises rt; timers := timers rt;
     inbox := evs; trace := trace rt |}.

(** [bus.off('user_message', l)]: removes one registration of that
    closure. *)
Fixpoint remove_listener (w : nat) (ls : list Listener) : list Listener :=
  match ls with
  | [] => []
  | l :: rest => if Nat.eqb (l_wait l) w then rest else l :: remove_listener w rest
  end.

Definition bus_off (w : nat) (s : Server) : Server :=
  match messageBus s with
  | Some b => set_messageBus (Some {| user_message_listeners :=
                                        remove_listener w (user_message_listeners b) |}) s
  | None => s
  end.

(** The body of the closure [onUserMessage] applied to a message
    [{sessionId, content}]. *)
Definition onUserMessage (l : Listener) (msg_sessionId msg_content : jsval)
    (rt : Runtime) : Runtime :=
  if strict_eq_string msg_sessionId (l_session l)
  then set_promises (settle (l_wait l) (Fulfilled msg_content) (promises rt))
         (set_this (bus_off (l_wait l) (this rt)) rt)
  else rt.

(** [bus.emit('user_message', msg)]: calls the listeners registered at
    the time of the emit, in order. *)
Definition emit_user_message (msg_sessionId msg_content : jsval) (rt : Runtime) : Runtime :=
  match messageBus (this rt) with
  | Some b =>
      fold_left (fun r l => onUserMessage l msg_sessionId msg_content r)
                (user_message_listeners b) rt
  | None => rt
  end.

Fixpoint remove_timer (w : nat) (ts : list Timer) : list Timer :=
  match ts with
  | [] => []
  | t :: rest => if Nat.eqb (t_wait t) w then rest else t :: remove_timer w rest
  end.

(** The [setTimeout] callback of wait [w] runs: the timer leaves the queue,
    the listener is removed and the promise rejected. *)
Definition fire_timer (w : nat) (rt : Runtime) : Runtime :=
  if existsb (fun t => Nat.eqb (t_wait t) w) (timers rt)
  then set_promises (settle w (Rejected (ErrorObj "User response timed out.")) (promises rt))
         (set_this (bus_off w (this rt))
            (set_timers (remove_timer w (timers rt)) rt))
  else rt.

Definition deliver (e : BusEvent) (rt : Runtime) : Runtime :=
  match e with
  | UserMessage sid content => emit_user_message sid content rt
  | TimerExpires w => fire_timer w rt
  end.

(** [await p] for a promise of [waitForUserResponse]: the caller stays
    suspended while bus events are delivered, until one of them settles
    [p]; with no event left and [p] still pending it stays suspended. *)
Fixpoint run_inbox (p : nat) (evs : list BusEvent) (rt : Runtime) : outcome jsval * Runtime :=
  match promises rt !! p with
  | Some (Fulfilled v) => (Returned v, set_inbox evs rt)
  | Some (Rejected e) => (Threw e, set_inbox evs rt)
  | _ =>
      match evs with
      | [] => (Suspended, set_inbox [] rt)
      | e :: rest => run_inbox p rest (deliver e rt)
      end
  end.

Definition await_promise (p : nat) : M jsval := fun rt => run_inbox p (inbox rt) rt.

(** [waitForUserResponse(timeoutMs = 60000)]: the promise executor, run
    synchronously by [new Promise]; the result is the new promise.  An
    exception inside the executor (here: reading [.on] of an unassigned
    [this.messageBus]) rejects the promise. *)
Definition waitForUserResponse (timeoutMs : option Z) : M nat :=
  fun rt =>
    let p := length (promises rt) in
    let delay := default 60000%Z timeoutMs in
    match live_session (this rt) with
    | None =>
        (Returned p,
         set_promises (promises rt ++ [Rejected (ErrorObj "No active session for user response.")]) rt)
    | Some sid =>
        match messageBus (this rt) with
        | None =>
            (Returned p,
             set_promises
               (promises rt ++
                  [Rejected (TypeErrorObj "Cannot read properties of undefined (reading 'on')")])
               rt)
        | Some b =>
            (Returned p,
             set_promises (promises rt ++ [Pending])
               (set_timers (timers rt ++ [ {| t_wait := p; t_delay := delay |} ])
                  (set_this
                     (set_messageBus
                        (Some {| user_message_listeners :=
                                   user_message_listeners b ++
                                     [ {| l_wait := p; l_session := sid |} ] |})
                        (this rt))
                     rt)))
        end
    end.

(** [async sendMessageToUser(message)] *)
Definition sendMessageToUser (message : jsval) : M unit :=
  s <- get_this ;;
  match live_session s with
  | None => throw (ErrorObj "No active session to send message to.")
  | Some sid =>
      match messageBus s with
      | None => throw (TypeErrorObj "Cannot read properties of undefined (reading 'emit')")
      | Some _ =>
          log (EvEmit "send_message"
                 (JObj [("sessionId", JStr sid); ("content", message);
                        ("timestamp", JNum (Date_now W))])) ;;;
          (* console.log(`Sent message to user (session: ${sessionId}):`, message.text) *)
          lift (get_prop message "text") ;;;
          ret tt
      end
  end.

(** The names bound in the module scope of the entry file: its imports and
    its top-level declarations.  Methods of the class are not among them;
    they are reachable through [this] only. *)
Definition module_scope : list string :=
  ["Server"; "StdioServerTransport"; "SSEServerTransport";
   "CallToolRequestSchema"; "ListToolsRequestSchema"; "express"; "cors"; "dotenv";
   "MCPAdapter"; "OpenAIAdapter"; "GeminiAdapter";
   "listAdAccounts"; "fetchPaginationUrl"; "getAccountDetails"; "getAccountInsights";
   "getAccountActivities"; "getAdCreatives";
   "facebookLogin"; "facebookLogout"; "facebookCheckAuth";
   "TOOL_SCHEMAS"; "CLAUDE_CONNECTOR_MANIFEST"; "NEW_CLAUDE_CONNECTOR_MANIFEST";
   "path"; "fileURLToPath"; "getLocalIPv4"; "getClaudeSessionCookie"; "open";
   "TokenStorage"; "readline"; "__filename"; "__dirname";
   "UniversalFacebookAdsServer"; "server"].

(** Evaluating a free identifier of a method body: a ReferenceError when
    nothing binds it (the global object of Node has no property of the one
    name looked up below either). *)
Definition reference (name : string) : M unit :=
  if existsb (String.eqb name) module_scope
  then ret tt
  else throw (ReferenceErrorObj (name +:+ " is not defined")).

Definition is_space (c : ascii) : bool :=
  match nat_of_ascii c with
  | 9 | 10 | 11 | 12 | 13 | 32 => true
  | _ => false
  end.

Fixpoint trim_start (s : string) : string :=
  match s with
  | EmptyString => EmptyString
  | String c r => if is_space c then trim_start r else s
  end.

(** [String.prototype.trim] on the ASCII white space. *)
Definition trim (s : string) : string :=
  String.rev (trim_start (String.rev (trim_start s))).

(** [response?.text?.trim()] *)
Definition text_trim (response : jsval) : jsval + jserror :=
  match get_prop_opt response "text" with
  | JUndefined | JNull => inl JUndefined
  | JStr t => inl (JStr (trim t))
  | _ => inr (TypeErrorObj "response?.text?.trim is not a function")
  end.

(** [async askOrganizationId()].  Its first statement calls
    [sendMessageToUser] as a free identifier, not as [this.sendMessageToUser];
    the model evaluates that reference first and, were it bound, lets the
    call behave as the method of the same name. *)
Definition askOrganizationId : M jsval :=
  reference "sendMessageToUser" ;;;
  sendMessageToUser
    (JObj [("type", JStr "text");
           ("text", JStr "🔐 Please enter your **Organization ID** to continue:")]) ;;;
  p <- waitForUserResponse None ;;
  response <- await_promise p ;;
  orgId <- lift (text_trim response) ;;
  if negb (truthy orgId)
  then throw (ErrorObj "❌ No organization ID provided by the user.")
  else ret orgId.

(** The request of the organization fallback of
    [resolveUserIdFromSessionOrOrg]: [fetch(fallbackUrl)], for an
    organization id whose conversion to a string does not throw. *)
Definition fallback_request (organizationId : jsval) : HttpRequest :=
  {| req_url := deployedUrl +:+ "/mcp-api/get_latest_session_by_org_id?organization_id="
                  +:+ to_template_string organizationId;
     req_method := "GET"; req_headers := []; req_body := None |}.

(** [async resolveUserIdFromSessionOrOrg(sessionUserMap, sessionId, organizationId)] *)
Definition resolveUserIdFromSessionOrOrg
    (sessionUserMap : gmap (option string) jsval) (sessionId : option string)
    (organizationId : jsval) : M jsval :=
  let user_id := default JUndefined (sessionUserMap !! sessionId) in
  if truthy user_id
  then ret user_id
  else
    if negb (truthy organizationId)
    then throw (ErrorObj "Organization ID is required for fallback resolution.")
    else
      (* const fallbackUrl = `${deployedUrl}/...?organization_id=${organizationId}` *)
      template organizationId ;;;
      fallbackRes <- do_fetch (fallback_request organizationId) ;;
      if negb (ok fallbackRes)
      then throw (ErrorObj ("❌ HTTP error from fallback API: " +:+ status_text fallbackRes
                              +:+ " " +:+ statusText fallbackRes))
      else
        fallbackData <- res_json fallbackRes ;;
        success <- lift (get_prop fallbackData "success") ;;
        if negb (truthy success) || negb (truthy (get_prop_opt fallbackData "user_id"))
        then throw (ErrorObj "❌ No valid session found for organization ID.")
        else
          (* console.log(`✅ Fallback resolved session_id: ${fallbackData.session_id}`) *)
          template (get_prop_opt fallbackData "session_id") ;;;
          ret (get_prop_opt fallbackData "session_id").

(* --------------------------------------------------------------------- *)
(** *** executeToolCall                                                    *)
(* --------------------------------------------------------------------- *)

Definition newline : string := String (ascii_of_nat 10) EmptyString.
Definition dquote : string := String (ascii_of_nat 34) EmptyString.

(** [JSON.stringify(names, null, 2)] for an array of strings none of which
    holds a character that JSON escapes (true of every catalogue key). *)
Definition JSON_stringify_names (names : list string) : string :=
  match names with
  | [] => "[]"
  | _ :: _ =>
      "[" +:+ newline
        +:+ String.concat ("," +:+ newline)
              (map (fun n => "  " +:+ dquote +:+ n +:+ dquote) names)
        +:+ newline +:+ "]"
  end.

(** [await handler(args, this.currentFacebookAccessToken)] for one of the
    imported tool handlers. *)
Definition call_handler (tool : string) (handler : jsval -> jsval -> outcome jsval)
    (args : jsval) : M jsval :=
  s <- get_this ;;
  log (EvHandler tool args (currentFacebookAccessToken s)) ;;;
  await (handler args (currentFacebookAccessToken s)).

(** The first half of [executeToolCall] (the statements before
    "Step 2: tool switch"): organization id, caller identity, token. *)
Definition resolve_credential (args : jsval) : M unit :=
  organization_id <- lift (get_prop args "organization_id") ;;
  organizationId <-
    (if negb (truthy organization_id)
     then
       (* Prompt user via chat to enter org ID *)
       asked <- askOrganizationId ;;
       if negb (truthy asked)
       then throw (ErrorObj "❌ Organization ID is required but was not provided.")
       else ret asked
     else ret organization_id) ;;
  (* Resolve user ID with organization ID provided *)
  s <- get_this ;;
  userId <- resolveUserIdFromSessionOrOrg (sessionUserMap s) (active_sessionId s)
              organizationId ;;
  (* Fetch Facebook token for resolved user *)
  fetchLatestFacebookAccessToken userId.

(** The second half: [switch (toolName) { ... }].  The cases compare with
    [===], so a [toolName] that is not a string falls to [default]. *)
Definition dispatch (toolName args : jsval) : M jsval :=
  if strict_eq_string toolName "facebook_list_ad_accounts"
  then call_handler "facebook_list_ad_accounts" (listAdAccounts W) args
  else if strict_eq_string toolName "facebook_fetch_pagination_url"
  then call_handler "facebook_fetch_pagination_url" (fetchPaginationUrl W) args
  else if strict_eq_string toolName "facebook_get_details_of_ad_account"
  then call_handler "facebook_get_details_of_ad_account" (getAccountDetails W) args
  else if strict_eq_string toolName "facebook_get_adaccount_insights"
  then call_handler "facebook_get_adaccount_insights" (getAccountInsights W) args
  else if strict_eq_string toolName "facebook_get_activities_by_adaccount"
  then call_handler "facebook_get_activities_by_adaccount" (getAccountActivities W) args
  else if strict_eq_string toolName "facebook_get_ad_creatives"
  then call_handler "facebook_get_ad_creatives" (getAdCreatives W) args
  else if strict_eq_string toolName "facebook_get_ad_thumbnails"
  then throw (ErrorObj "get_ad_thumbnails_embedded tool is temporarily disabled")
  else if strict_eq_string toolName "_list_tools"
  then ret (JObj [("content",
                   JArr [JObj [("type", JStr "text");
                               ("text", JStr (JSON_stringify_names tool_names))]])])
  else
    name <- template toolName ;;
    throw (ErrorObj ("Unknown tool: " +:+ name)).

(** [async executeToolCall({ toolName, args })] *)
Definition executeToolCall (toolName args : jsval) : M jsval :=
  resolve_credential args ;;;
  dispatch toolName args.

(* --------------------------------------------------------------------- *)
(** *** Routes                                                             *)
(* --------------------------------------------------------------------- *)

(** What the POST /trigger-token-fetch route reads of its request. *)
Record ExpressRequest : Type := mkExpressRequest {
  body : jsval;                 (* req.body *)
  header_session_id : jsval;    (* req.headers['session-id'] *)
  cookies : jsval               (* req.cookies *)
}.

(** [res.status(code).send(html)] *)
Record ExpressReply : Type := mkReply {
  reply_status : N;
  reply_html : string
}.

(** The request sent to the credential service's session-save endpoint. *)
Definition save_session_request (user_id sessionId localIP organization_id : jsval)
    : HttpRequest :=
  {| req_url := deployedUrl +:+ "/mcp-api/save_user_session";
     req_method := "POST";
     req_headers := [("Content-Type", JStr "application/json")];
     req_body := Some (JObj [("user_id", user_id);
                             ("session_id", sessionId);
                             ("server_ip", localIP);
                             ("organization_id", organization_id)]) |}.

(** [const { access_token, user_id, organization_id } = req.body]: a
    TypeError when the body is [undefined] or [null]. *)
Definition destructure_body (body : jsval) : M unit :=
  match body with
  | JUndefined =>
      throw (TypeErrorObj
               "Cannot destructure property 'access_token' of 'req.body' as it is undefined.")
  | JNull =>
      throw (TypeErrorObj
               "Cannot destructure property 'access_token' of 'req.body' as it is null.")
  | _ => ret tt
  end.

(** [this.apiServer.post('/trigger-token-fetch', async (req, res) => ...)] *)
Definition trigger_token_fetch (req : ExpressRequest) : M ExpressReply :=
  try_catch
    (destructure_body (body req) ;;;
     let access_token := get_prop_opt (body req) "access_token" in
     let user_id := get_prop_opt (body req) "user_id" in
     let organization_id := get_prop_opt (body req) "organization_id" in
     if negb (truthy access_token) || negb (truthy user_id)
     then ret {| reply_status := 400;
                 reply_html := "<h2>❌ Missing access_token or user_id.</h2>" |}
     else
       (* Get session ID from headers or cookies *)
       let sessionId := js_or (header_session_id req) (get_prop_opt (cookies req) "session_id") in
       if negb (truthy sessionId)
       then ret {| reply_status := 400;
                   reply_html := "<h2>❌ Session ID not found.</h2>" |}
       else
         (* this.sessionUserMap.set(this.activeSseTransport?.sessionId, sessionId); *)
         modify_this (fun s =>
           set_sessionUserMap (<[active_sessionId s := sessionId]> (sessionUserMap s)) s) ;;;
         (* console.log(`Session ${sessionId} associated with user ${user_id}`) *)
         template sessionId ;;;
         template user_id ;;;
         (* try { localIP = await getLocalIPv4() } catch (ipErr) { localIP = null } *)
         localIP <- try_catch (await (getLocalIPv4 W)) (fun ipErr => ret JNull) ;;
         response <- do_fetch (save_session_request user_id sessionId localIP organization_id) ;;
         result <- res_json response ;;
         success <- lift (get_prop result "success") ;;
         if truthy success
         then ret {| reply_status := 200;
                     reply_html := "<h2>✅ Token fetched, user info retrieved, and session saved! You may now return to the app.</h2>" |}
         else
           message <- template (js_or (get_prop_opt result "message") (JStr "Unknown error")) ;;
           ret {| reply_status := 500;
                  reply_html := "<h2>⚠️ Flask error: " +:+ message +:+ "</h2>" |})
    (fun error =>
       ret {| reply_status := 500;
              reply_html := "<h2>❌ Error: " +:+ message_of error +:+ "</h2>" |}).

(** The first GET /mcp route: [this.activeSseTransport = new
    SSEServerTransport('/mcp', res)], whose session id the SDK draws. *)
Definition get_mcp (sid : string) (rt : Runtime) : Runtime :=
  set_this (set_activeSseTransport (Some {| sessionId := Some sid |}) (this rt)) rt.

End Gateway.

(* ===================================================================== *)
(** ** Notions used in the statements                                     *)
(* ===================================================================== *)

(** [m] preserves the property [I] of the server object. *)
Definition preserves (I : Server -> Prop) {A : Type} (m : M A) : Prop :=
  forall rt, I (this rt) -> I (this (snd (m rt))).

(** The token a reply of the token endpoint carries, in the words of the
    service contract: the reply is ok and its JSON body has a truthy
    [success] flag and a truthy [facebook_access_token]. *)
Definition service_token (o : FetchOutcome) : option jsval :=
  match o with
  | Responded res =>
      if ok res
      then match json_body res with
           | Some (JObj fields) =>
               if truthy (assoc "success" fields)
                  && truthy (assoc "facebook_access_token" fields)
               then Some (assoc "facebook_access_token" fields)
               else None
           | _ => None
           end
      else None
  | NetworkFailure _ | NoAnswer => None
  end.

(** What the log line after the assignment makes of the stored token: it
    passes for a string, and for an array whose first ten elements
    convert to a string; it throws for everything else. *)
Definition slice_outcome (token : jsval) : outcome unit :=
  match token with
  | JStr _ => Returned tt
  | JArr xs =>
      match template_error (JArr (take 10 xs)) with
      | Some e => Threw e
      | None => Returned tt
      end
  | _ => Threw (TypeErrorObj "this.currentFacebookAccessToken.slice is not a function")
  end.

(** What can happen to a running server, as far as the modelled state is
    concerned: a client opens the SSE stream, a tool call runs, the
    registration route is hit, bus events are queued or delivered.  The
    world may answer differently at every step. *)
Inductive step : Runtime -> Runtime -> Prop :=
  | step_connect sid rt :
      step rt (get_mcp sid rt)
  | step_call W toolName args rt :
      step rt (snd (executeToolCall W toolName args rt))
  | step_register W req rt :
      step rt (snd (trigger_token_fetch W req rt))
  | step_enqueue evs rt :
      step rt (set_inbox (inbox rt ++ evs) rt)
  | step_deliver e rt :
      step rt (deliver e rt).

Definition reachable (rt : Runtime) : Prop := rtc step boot rt.

(** Every value stored in the registry is truthy. *)
Definition registry_truthy (s : Server) : Prop :=
  forall k v, sessionUserMap s !! k = Some v -> truthy v = true.

Definition server_inv (s : Server) : Prop :=
  messageBus s = None /\ registry_truthy s.

(** [process.env.FACEBOOK_ACCESS_TOKEN] set to [tok], everything else as
    in [W]. *)
Definition with_override (tok : option string) (W : World) : World :=
  {| env_FACEBOOK_ACCESS_TOKEN := tok;
     env_DEPLOYED_URL := env_DEPLOYED_URL W;
     fetch := fetch W;
     json_failure := json_failure W;
     TokenStorage_getToken := TokenStorage_getToken W;
     listAdAccounts := listAdAccounts W;
     fetchPaginationUrl := fetchPaginationUrl W;
     getAccountDetails := getAccountDetails W;
     getAccountInsights := getAccountInsights W;
     getAccountActivities := getAccountActivities W;
     getAdCreatives := getAdCreatives W;
     getLocalIPv4 := getLocalIPv4 W;
     Date_now := Date_now W |}.

(** What [_list_tools] returns. *)
Definition list_tools_result : jsval :=
  JObj [("content",
         JArr [JObj [("type", JStr "text");
                     ("text", JStr (JSON_stringify_names tool_names))]])].

(** The names the switch of [executeToolCall] has a case for. *)
Definition handled (toolName : jsval) : bool :=
  match toolName with
  | JStr name =>
      in_catalogue name
      || String.eqb name "facebook_get_ad_thumbnails"
      || String.eqb name "_list_tools"
  | _ => false
  end.

Fixpoint lookup_field (k : string) (fields : list (string * jsval)) : option jsval :=
  match fields with
  | [] => None
  | (k', v) :: rest => if String.eqb k k' then Some v else lookup_field k rest
  end.

(** Validation as the specification words it: a value conforms to a type
    when scalars are of the named kind, arrays are arrays of conforming
    items, and objects are objects whose listed fields, where present,
    conform. *)
Fixpoint conforms (t : SchemaType) (v : jsval) {struct t} : bool :=
  match t with
  | TString => match v with JStr _ => true | _ => false end
  | TNumber => match v with JNum _ => true | _ => false end
  | TBoolean => match v with JBool _ => true | _ => false end
  | TArray items =>
      match v with
      | JArr xs => forallb (conforms items) xs
      | _ => false
      end
  | TObject props =>
      match v with
      | JObj fields =>
          (fix all (ps : list (string * SchemaType)) : bool :=
             match ps with
             | [] => true
             | (k, t') :: rest =>
                 match lookup_field k fields with
                 | Some v' => conforms t' v'
                 | None => true
                 end && all rest
             end) props
      | _ => false
      end
  | TOneOf alternatives =>
      (fix any (ts : list SchemaType) : bool :=
         match ts with
         | [] => false
         | t' :: rest => conforms t' v || any rest
         end) alternatives
  end.

Definition is_Some_bool {A} (o : option A) : bool :=
  match o with
  | Some _ => true
  | None => false
  end.

(** The offending field of [fields] under a schema, if there is one: the
    first required field that is absent, else the first declared property
    that is present with a value of the wrong type. *)
Definition validate_args (sch : ToolSchema) (fields : list (string * jsval)) : option string :=
  match List.filter (fun k => negb (is_Some_bool (lookup_field k fields))) (required sch) with
  | k :: _ => Some k
  | [] =>
      match List.filter (fun p => match lookup_field (fst p) fields with
                                  | Some v => negb (conforms (snd p) v)
                                  | None => false
                                  end) (properties sch) with
      | p :: _ => Some (fst p)
      | [] => None
      end
  end.

(** The imported handler the switch calls for a catalogue tool. *)
Definition handler_of (W : World) (name : string) : jsval -> jsval -> outcome jsval :=
  if String.eqb name "facebook_list_ad_accounts" then listAdAccounts W
  else if String.eqb name "facebook_fetch_pagination_url" then fetchPaginationUrl W
  else if String.eqb name "facebook_get_details_of_ad_account" then getAccountDetails W
  else if String.eqb name "facebook_get_adaccount_insights" then getAccountInsights W
  else if String.eqb name "facebook_get_activities_by_adaccount" then getAccountActivities W
  else getAdCreatives W.

Definition handler_events (tr : list Event) : list Event :=
  List.filter (fun e => match e with EvHandler _ _ _ => true | _ => false end) tr.

(** What the organization fallback makes of the service's answer. *)
Definition fallback_outcome (W : World) (o : FetchOutcome) : outcome jsval :=
  match o with
  | NoAnswer => Suspended
  | NetworkFailure m => Threw (TypeErrorObj m)
  | Responded res =>
      if ok res
      then match json_body res with
           | None =>
               match json_failure W res with
               | Some e => Threw e
               | None => Suspended
               end
           | Some JUndefined =>
               Threw (TypeErrorObj "Cannot read properties of undefined (reading 'success')")
           | Some JNull =>
               Threw (TypeErrorObj "Cannot read properties of null (reading 'success')")
           | Some (JObj fields) =>
               if truthy (assoc "success" fields) && truthy (assoc "user_id" fields)
               then match template_error (assoc "session_id" fields) with
                    | Some e => Threw e
                    | None => Returned (assoc "session_id" fields)
                    end
               else Threw (ErrorObj "❌ No valid session found for organization ID.")
           | Some _ => Threw (ErrorObj "❌ No valid session found for organization ID.")
           end
      else Threw (ErrorObj ("❌ HTTP error from fallback API: " +:+ status_text res
                              +:+ " " +:+ statusText res))
  end.

(** [await this.waitForUserResponse()] *)
Definition wait_and_await (timeoutMs : option Z) : M jsval :=
  p <- waitForUserResponse timeoutMs ;;
  await_promise p.

Definition listeners_of (rt : Runtime) : list Listener :=
  match messageBus (this rt) with
  | Some b => user_message_listeners b
  | None => []
  end.

(** The session identifier the route derives from the request:
    [req.headers['session-id'] || req.cookies?.session_id]. *)
Definition derived_session_id (req : ExpressRequest) : jsval :=
  js_or (header_session_id req) (get_prop_opt (cookies req) "session_id").

(* ===================================================================== *)
(** ** Concrete worlds and states                                         *)
(* ===================================================================== *)

Module Scenario.

(** A handler that reports what it was called with. *)
Definition echo (tool : string) (args token : jsval) : outcome jsval :=
  Returned (JObj [("tool", JStr tool); ("args", args); ("token", token)]).

Definition base : string := "https://facebook-ads-mcp-btfuv.ondigitalocean.app".

(** A credential service that knows organization "org1": its latest
    session is "s9" of user "u1", and the token it hands out is
    "SERVICE_TOKEN". *)
Definition service (r : HttpRequest) : FetchOutcome :=
  if String.eqb (req_url r) (base +:+ "/mcp-api/facebook_token_by_user")
  then Responded {| status := 200; statusText := "OK";
                    json_body := Some (JObj [("success", JBool true);
                                             ("facebook_access_token", JStr "SERVICE_TOKEN")]) |}
  else if String.eqb (req_url r)
            (base +:+ "/mcp-api/get_latest_session_by_org_id?organization_id=org1")
  then Responded {| status := 200; statusText := "OK";
                    json_body := Some (JObj [("success", JBool true);
                                             ("user_id", JStr "u1");
                                             ("session_id", JStr "s9")]) |}
  else if String.eqb (req_url r) (base +:+ "/mcp-api/save_user_session")
  then Responded {| status := 200; statusText := "OK";
                    json_body := Some (JObj [("success", JBool true)]) |}
  else NetworkFailure "fetch failed".

Definition unreachable_service (r : HttpRequest) : FetchOutcome :=
  NetworkFailure "fetch failed".

Definition world (override : option string) (net : HttpRequest -> FetchOutcome) : World :=
  {| env_FACEBOOK_ACCESS_TOKEN := override;
     env_DEPLOYED_URL := None;
     fetch := net;
     json_failure := fun _ => Some (SyntaxErrorObj "Unexpected end of JSON input");
     TokenStorage_getToken := Returned JNull;
     listAdAccounts := echo "listAdAccounts";
     fetchPaginationUrl := echo "fetchPaginationUrl";
     getAccountDetails := echo "getAccountDetails";
     getAccountInsights := echo "getAccountInsights";
     getAccountActivities := echo "getAccountActivities";
     getAdCreatives := echo "getAdCreatives";
     getLocalIPv4 := Returned (JStr "10.0.0.7");
     Date_now := 1700000000000 |}.

Definition online : World := world None service.
Definition pinned : World := world (Some "OVERRIDE_TOKEN") service.
Definition offline : World := world None unreachable_service.

(** A server whose SSE stream was opened with session id "t1". *)
Definition connected : Runtime := get_mcp "t1" boot.

(** A registration request for user "u1" of organization "org1" whose
    'session-id' header is "abc". *)
Definition registration : ExpressRequest :=
  {| body := JObj [("access_token", JStr "tok"); ("user_id", JStr "u1");
                   ("organization_id", JStr "org1")];
     header_session_id := JStr "abc";
     cookies := JUndefined |}.

(** The connected server after that registration. *)
Definition registered : Runtime := snd (trigger_token_fetch online registration connected).

(** The same, with the interaction log cleared. *)
Definition registered_quiet : Runtime :=
  {| this := this registered; promises := []; timers := []; inbox := []; trace := [] |}.

Definition with_org1 : jsval := JObj [("organization_id", JStr "org1")].

(** A connected server to which an event emitter has been attached from
    outside, with the bus events [evs] still to come. *)
Definition bus_attached (evs : list BusEvent) : Runtime :=
  set_inbox evs
    (set_this (set_messageBus (Some {| user_message_listeners := [] |}) (this connected))
       connected).

(** The user answers the prompt on session "t1". *)
Definition reply_org1 : BusEvent :=
  UserMessage (JStr "t1") (JObj [("text", JStr " org1 ")]).

End Scenario.

(* ===================================================================== *)
(** ** Further routes and handlers of the entry file                      *)
(* ===================================================================== *)

(** [JSON.stringify(s)] for a string: the quoted string with the escapes
    of the JSON grammar (short escapes for backspace, tab, line feed, form
    feed and carriage return, a \u00XX escape for the other control
    characters). *)
Definition hex_digit (n : nat) : ascii :=
  ascii_of_nat (if Nat.ltb n 10 then 48 + n else 87 + n).

Definition json_escape_char (c : ascii) : string :=
  let n := nat_of_ascii c in
  let backslash := String (ascii_of_nat 92) EmptyString in
  if Nat.eqb n 34 then backslash +:+ dquote
  else if Nat.eqb n 92 then backslash +:+ backslash
  else if Nat.eqb n 8 then backslash +:+ "b"
  else if Nat.eqb n 9 then backslash +:+ "t"
  else if Nat.eqb n 10 then backslash +:+ "n"
  else if Nat.eqb n 12 then backslash +:+ "f"
  else if Nat.eqb n 13 then backslash +:+ "r"
  else if Nat.ltb n 32
       then backslash +:+ "u00"
              +:+ String (hex_digit (Nat.div n 16)) (String (hex_digit (Nat.modulo n 16)) EmptyString)
  else String c EmptyString.

Fixpoint json_escape (s : string) : string :=
  match s with
  | EmptyString => EmptyString
  | String c rest => json_escape_char c +:+ json_escape rest
  end.

Definition json_quote (s : string) : string := dquote +:+ json_escape s +:+ dquote.

(** [JSON.stringify(v, null, 2)] below the indentation [indent]; [None]
    is the result [undefined].  Array holes and [undefined] elements print
    as [null]; object properties whose value is [undefined] are left
    out. *)
Fixpoint stringify_at (indent : string) (v : jsval) {struct v} : option string :=
  match v with
  | JUndefined => None
  | JNull => Some "null"
  | JBool true => Some "true"
  | JBool false => Some "false"
  | JNum n => Some (if is_finite n then number_to_string n else "null")
  | JStr s => Some (json_quote s)
  | JArr xs =>
      let inner := indent +:+ "  " in
      let items :=
        (fix each (l : list jsval) : list string :=
           match l with
           | [] => []
           | x :: rest => (inner +:+ default "null" (stringify_at inner x)) :: each rest
           end) xs in
      match items with
      | [] => Some "[]"
      | _ :: _ =>
          Some ("[" +:+ newline +:+ String.concat ("," +:+ newline) items
                  +:+ newline +:+ indent +:+ "]")
      end
  | JObj fields =>
      let inner := indent +:+ "  " in
      let props :=
        (fix each (l : list (string * jsval)) : list string :=
           match l with
           | [] => []
           | (k, x) :: rest =>
               match stringify_at inner x with
               | Some sx => (inner +:+ json_quote k +:+ ": " +:+ sx) :: each rest
               | None => each rest
               end
           end) fields in
      match props with
      | [] => Some "{}"
      | _ :: _ =>
          Some ("{" +:+ newline +:+ String.concat ("," +:+ newline) props
                  +:+ newline +:+ indent +:+ "}")
      end
  end.

Definition JSON_stringify_2 (v : jsval) : jsval :=
  of_option_string (stringify_at "" v).

(** [res.status(code).json(body)]; [reply_json] is the object handed to
    [res.json], [None] after [res.status(code).end()]. *)
Record JsonReply : Type := mkJsonReply {
  reply_code : N;
  reply_json : option jsval
}.

(** [{ content: [{ type: 'text', text: JSON.stringify(result, null, 2) }] }] *)
Definition text_content (result : jsval) : jsval :=
  JObj [("content",
         JArr [JObj [("type", JStr "text"); ("text", JSON_stringify_2 result)]])].

(** The first group of REST routes (after the comment "REST API endpoints
    for individual tools"):
    [post('/tools/<toolName>', ...)] answering [res.json(result)], or
    [res.status(500).json({ error: error.message })] when the call
    throws. *)
Definition rest_tool_route (W : World) (toolName : string) (req_body : jsval) : M JsonReply :=
  try_catch
    (result <- executeToolCall W (JStr toolName) req_body ;;
     ret {| reply_code := 200; reply_json := Some result |})
    (fun error =>
       ret {| reply_code := 500;
              reply_json := Some (JObj [("error", JStr (message_of error))]) |}).

(** The second group ("Claude.ai individual tool endpoints"): the same,
    with the result wrapped into a text content block. *)
Definition rest_tool_route_text (W : World) (toolName : string) (req_body : jsval)
    : M JsonReply :=
  try_catch
    (result <- executeToolCall W (JStr toolName) req_body ;;
     ret {| reply_code := 200; reply_json := Some (text_content result) |})
    (fun error =>
       ret {| reply_code := 500;
              reply_json := Some (JObj [("error", JStr (message_of error))]) |}).

(** The tool names of the two groups, in registration order. *)
Definition rest_routes : list string :=
  ["facebook_login"; "facebook_logout"; "facebook_check_auth";
   "facebook_list_ad_accounts"; "facebook_fetch_pagination_url";
   "facebook_get_details_of_ad_account"; "facebook_get_adaccount_insights";
   "facebook_get_activities_by_adaccount"; "facebook_get_ad_creatives"].

Definition rest_routes_text : list string :=
  ["facebook_list_ad_accounts"; "facebook_get_details_of_ad_account";
   "facebook_get_adaccount_insights"; "facebook_get_ad_creatives";
   "facebook_get_activities_by_adaccount"; "facebook_get_campaign_details";
   "facebook_get_adset_details"; "facebook_get_creative_asset_url_by_ad_id"].

(** POST /tools/<toolName> as the application serves it: both groups
    register the same method and path for five tools, their handlers
    always answer and never pass the request on, so the handler registered
    first is the one that runs.  [None]: no such route. *)
Definition post_tools (W : World) (toolName : string) : option (jsval -> M JsonReply) :=
  if existsb (String.eqb toolName) rest_routes
  then Some (rest_tool_route W toolName)
  else if existsb (String.eqb toolName) rest_routes_text
  then Some (rest_tool_route_text W toolName)
  else None.

(** The reply of GET /save-trigger-token-fetch.  For the listing the
    entries are given as the registry itself; the order of the array the
    route builds from the [Map] is not represented. *)
Inductive SessionLookupReply : Type :=
  | LookupFound (sessionId : jsval) (userId : jsval)
      (* 200 { success: true, sessionId, userId } *)
  | LookupNotFound
      (* 404 { success: false, message: 'No user found for given session_id' } *)
  | LookupAll (entries : gmap (option string) jsval).
      (* 200 { success: true, sessionUserMap: [...] } *)

(** [this.sessionUserMap.get(key)] for an arbitrary value as key: only a
    string can equal a key the registry holds besides [undefined]. *)
Definition registry_get (m : gmap (option string) jsval) (key : jsval) : jsval :=
  match key with
  | JStr k => default JUndefined (m !! Some k)
  | JUndefined => default JUndefined (m !! None)
  | _ => JUndefined
  end.

(** [this.apiServer.get('/save-trigger-token-fetch', (req, res) => ...)],
    as a function of [req.query.session_id]; nothing in its [try] block
    throws. *)
Definition save_trigger_token_fetch (query_session_id : jsval) (s : Server)
    : SessionLookupReply :=
  if truthy query_session_id
  then
    let userId := registry_get (sessionUserMap s) query_session_id in
    if truthy userId
    then LookupFound query_session_id userId
    else LookupNotFound
  else LookupAll (sessionUserMap s).

(** JSON-RPC envelopes built by the routes. *)
Definition jsonrpc_result (id result : jsval) : jsval :=
  JObj [("jsonrpc", JStr "2.0"); ("id", id); ("result", result)].

Definition jsonrpc_error (id : jsval) (code : Z) (message : string) : jsval :=
  JObj [("jsonrpc", JStr "2.0"); ("id", id);
        ("error", JObj [("code", JNum code); ("message", JStr message)])].

Definition initialize_result (name version : string) : jsval :=
  JObj [("protocolVersion", JStr "2025-06-18");
        ("capabilities", JObj [("tools", JObj [])]);
        ("serverInfo", JObj [("name", JStr name); ("version", JStr version)])].

(** [this.executeToolCall({ toolName: message.params.name,
                            args: message.params.arguments || {} })] *)
Definition call_from_message (W : World) (message : jsval) : M jsval :=
  params <- lift (get_prop message "params") ;;
  name <- lift (get_prop params "name") ;;
  executeToolCall W name (js_or (get_prop_opt params "arguments") (JObj [])).

Section JsonRpc.

Variable W : World.

(** [this.adapters.mcp.getToolDefinitions(TOOL_SCHEMAS)]: the adapter is
    imported from ./adapters/mcp-adapter.js. *)
Variable mcp_getToolDefinitions : jsval + jserror.

(** [this.apiServer.post('/test-manifest/:variant', async (req, res) => ...)]
    as a function of [req.body]. *)
Definition post_test_manifest (req_body : jsval) : M JsonReply :=
  try_catch
    (method <- lift (get_prop req_body "method") ;;
     if strict_eq_string method "initialize"
     then ret {| reply_code := 200;
                 reply_json := Some (jsonrpc_result (get_prop_opt req_body "id")
                                       (initialize_result "facebook-ads-test" "1.0.0")) |}
     else if strict_eq_string method "tools/list"
     then
       tools <- lift mcp_getToolDefinitions ;;
       ret {| reply_code := 200;
              reply_json := Some (jsonrpc_result (get_prop_opt req_body "id")
                                    (JObj [("tools", tools)])) |}
     else if strict_eq_string method "tools/call"
     then
       result <- call_from_message W req_body ;;
       ret {| reply_code := 200;
              reply_json := Some (jsonrpc_result (get_prop_opt req_body "id") result) |}
     else
       name <- template method ;;
       ret {| reply_code := 200;
              reply_json := Some (jsonrpc_error (get_prop_opt req_body "id") (-32601)
                                    ("Method not found: " +:+ name)) |})
    (fun error =>
       (* id: req.body.id || 0 *)
       id <- lift (get_prop req_body "id") ;;
       ret {| reply_code := 500;
              reply_json := Some (jsonrpc_error (js_or id (JNum 0)) (-32603)
                                    (message_of error)) |}).

End JsonRpc.

(* ===================================================================== *)
(** ** Further notions used in the statements                             *)
(* ===================================================================== *)

(** [process.env.FACEBOOK_ACCESS_TOKEN] as a value. *)
Definition env_override (W : World) : jsval :=
  of_option_string (env_FACEBOOK_ACCESS_TOKEN W).

(** The token [await TokenStorage.getToken()] yields, [undefined] when
    the call does not return. *)
Definition stored_token (W : World) : jsval :=
  match TokenStorage_getToken W with
  | Returned v => v
  | _ => JUndefined
  end.

(** An exchange with the credential service that never completes for a
    caller that looks at the status before it reads the body: no response
    arrives, or the body of an ok response never does. *)
Definition hangs (W : World) (o : FetchOutcome) : bool :=
  match o with
  | NoAnswer => true
  | NetworkFailure _ => false
  | Responded res =>
      ok res && match json_body res, json_failure W res with
                | None, None => true
                | _, _ => false
                end
  end.

(** The same for the registration route, which reads the body whatever
    the status. *)
Definition save_hangs (W : World) (o : FetchOutcome) : bool :=
  match o with
  | NoAnswer => true
  | NetworkFailure _ => false
  | Responded res =>
      match json_body res, json_failure W res with
      | None, None => true
      | _, _ => false
      end
  end.

(** A world in which every awaited call of a tool call settles. *)
Definition responsive (W : World) : Prop :=
  (forall r, fetch W r <> NoAnswer)
  /\ (forall res, json_body res = None -> json_failure W res <> None)
  /\ (forall name args token, handler_of W name args token <> Suspended).

(** [m] never stays suspended. *)
Definition settles {A : Type} (m : M A) : Prop :=
  forall rt, fst (m rt) <> Suspended.

(** The request of the third tier of [fetchFacebookAccessToken]:
    [fetch(url)] with the user id in the query string. *)
Definition token_by_user_request (W : World) (userId : jsval) : HttpRequest :=
  {| req_url := deployedUrl W +:+ "/mcp-api/facebook_token_by_user?userId="
                  +:+ to_template_string userId;
     req_method := "GET"; req_headers := []; req_body := None |}.

(** The session-save endpoint acknowledged: its answer is JSON with a
    truthy [success] (the route does not look at the HTTP status). *)
Definition save_acknowledged (o : FetchOutcome) : bool :=
  match o with
  | Responded res =>
      match json_body res with
      | Some (JObj fields) => truthy (assoc "success" fields)
      | _ => false
      end
  | NetworkFailure _ | NoAnswer => false
  end.

(** [localIP] of the registration route: the address [getLocalIPv4]
    resolves to, [null] when it rejects. *)
Definition local_ip (W : World) : jsval :=
  match getLocalIPv4 W with
  | Returned ip => ip
  | _ => JNull
  end.

(** The request the registration route sends for [req]. *)
Definition registration_request (W : World) (req : ExpressRequest) : HttpRequest :=
  save_session_request W (get_prop_opt (body req) "user_id")
    (derived_session_id req)
    (local_ip W)
    (get_prop_opt (body req) "organization_id").

(** The registration route accepts [req]: [access_token], [user_id] and a
    session identifier are all there. *)
Definition registration_accepted (req : ExpressRequest) : bool :=
  truthy (get_prop_opt (body req) "access_token")
  && truthy (get_prop_opt (body req) "user_id")
  && truthy (derived_session_id req).

(** The log line of the registration route can be printed: neither the
    session identifier nor [user_id] throws when converted to a string. *)
Definition registration_printable (req : ExpressRequest) : bool :=
  match template_error (derived_session_id req),
        template_error (get_prop_opt (body req) "user_id") with
  | None, None => true
  | _, _ => false
  end.

(** The state once an accepted registration is written to the
    registry. *)
Definition recorded (req : ExpressRequest) (rt : Runtime) : Runtime :=
  set_this
    (set_sessionUserMap
       (<[active_sessionId (this rt) := derived_session_id req]> (sessionUserMap (this rt)))
       (this rt))
    rt.

(** The state an accepted registration leaves once the session-save
    endpoint has been asked. *)
Definition after_registration (W : World) (req : ExpressRequest) (rt : Runtime) : Runtime :=
  push_event (EvFetch (registration_request W req)) (recorded req rt).

Definition is_fetch (e : Event) : bool :=
  match e with
  | EvFetch _ => true
  | _ => false
  end.

Definition fetch_events (tr : list Event) : list Event := List.filter is_fetch tr.

(** What [m] adds to the interaction log holds at most [nf] calls of
    [fetch] and [nh] handler invocations. *)
Definition bounded (nf nh : nat) {A : Type} (m : M A) : Prop :=
  forall rt,
    exists evs, trace (snd (m rt)) = trace rt ++ evs
                /\ length (fetch_events evs) <= nf
                /\ length (handler_events evs) <= nh.

(** The [session_id] of a usable answer of the organization fallback: ok
    status and a JSON body with truthy [success] and [user_id]. *)
Definition fallback_session (o : FetchOutcome) : option jsval :=
  match o with
  | Responded res =>
      if ok res
      then match json_body res with
           | Some (JObj fields) =>
               if truthy (assoc "success" fields) && truthy (assoc "user_id" fields)
               then Some (assoc "session_id" fields)
               else None
           | _ => None
           end
      else None
  | NetworkFailure _ | NoAnswer => None
  end.

(** The [id] member of a JSON-RPC envelope. *)
Definition envelope_id (envelope : jsval) : jsval := get_prop_opt envelope "id".

(** Every listener on the bus belongs to a promise that exists: what
    [waitForUserResponse] and the delivery of bus events maintain, since
    each call creates one promise and registers one closure for it. *)
Definition listeners_wf (rt : Runtime) : Prop :=
  Forall (fun l => l_wait l < length (promises rt)) (listeners_of rt).

(** The listeners registered on the bus for wait [p]. *)
Definition listeners_for (p : nat) (rt : Runtime) : list Listener :=
  List.filter (fun l => Nat.eqb (l_wait l) p) (listeners_of rt).

(** The bus events that concern the wait [p] of session [sid]: a user
    message for that session, and the expiry of the wait's own timer. *)
Definition relevant (sid : string) (p : nat) (e : BusEvent) : bool :=
  match e with
  | UserMessage msg_sessionId _ => strict_eq_string msg_sessionId sid
  | TimerExpires w => Nat.eqb w p
  end.

(** The wait [p] of session [sid] is in progress: its promise is
    pending, its closure is the one listener registered for it, and its
    timer is in the queue. *)
Definition waiting (p : nat) (sid : string) (rt : Runtime) : Prop :=
  promises rt !! p = Some Pending
  /\ listeners_for p rt = [ {| l_wait := p; l_session := sid |} ]
  /\ existsb (fun t => Nat.eqb (t_wait t) p) (timers rt) = true.

(** The wait [p] is over with [s], and no listener of it is left. *)
Definition finished (p : nat) (s : PromiseState) (rt : Runtime) : Prop :=
  promises rt !! p = Some s /\ s <> Pending /\ listeners_for p rt = [].

(** What the awaiting call makes of the first bus event that concerns
    its wait. *)
Definition wait_result (first : option BusEvent) : outcome jsval :=
  match first with
  | Some (UserMessage _ content) => Returned content
  | Some (TimerExpires _) => Threw (ErrorObj "User response timed out.")
  | None => Suspended
  end.

Module Scenario2.

(** A world with a locally stored token and no override. *)
Definition stored : World :=
  {| env_FACEBOOK_ACCESS_TOKEN := None;
     env_DEPLOYED_URL := None;
     fetch := Scenario.service;
     json_failure := fun _ => Some (SyntaxErrorObj "Unexpected end of JSON input");
     TokenStorage_getToken := Returned (JStr "LOCAL_TOKEN");
     listAdAccounts := Scenario.echo "listAdAccounts";
     fetchPaginationUrl := Scenario.echo "fetchPaginationUrl";
     getAccountDetails := Scenario.echo "getAccountDetails";
     getAccountInsights := Scenario.echo "getAccountInsights";
     getAccountActivities := Scenario.echo "getAccountActivities";
     getAdCreatives := Scenario.echo "getAdCreatives";
     getLocalIPv4 := Returned (JStr "10.0.0.7");
     Date_now := 1700000000000 |}.

(** A second registration, by user "u2" with session header "xyz". *)
Definition registration2 : ExpressRequest :=
  {| body := JObj [("access_token", JStr "tok2"); ("user_id", JStr "u2");
                   ("organization_id", JStr "org1")];
     header_session_id := JStr "xyz";
     cookies := JUndefined |}.

(** A registration request without session header or cookie. *)
Definition anonymous_registration : ExpressRequest :=
  {| body := JObj [("access_token", JStr "tok"); ("user_id", JStr "u1")];
     header_session_id := JUndefined;
     cookies := JUndefined |}.

(** A credential service whose token endpoint answers with a number
    where a string is expected. *)
Definition numeric_token_service (r : HttpRequest) : FetchOutcome :=
  Responded {| status := 200; statusText := "OK";
               json_body := Some (JObj [("success", JBool true);
                                        ("facebook_access_token", JNum 12345)]) |}.

Definition numeric : World := Scenario.world None numeric_token_service.

(** A connected server that holds the token of an earlier call. *)
Definition holding_token : Runtime :=
  set_this (set_currentFacebookAccessToken (JStr "EARLIER_TOKEN") (this Scenario.connected))
    Scenario.connected.

End Scenario2.

(* ===================================================================== *)
(** ** Reasoning support                                                  *)
(* ===================================================================== *)

Ltac unfold_monad :=
  unfold bind, ret, throw, try_catch, lift, get_this, modify_this, log, do_fetch, res_json in *.

(* ===================================================================== *)
(** ** C10: the token fetch                                               *)
(* ===================================================================== *)

Lemma fetchLatest_some W cookie rt token :
  service_token (fetch W (token_request W cookie)) = Some token ->
  fetchLatestFacebookAccessToken W cookie rt
  = (slice_outcome token,
     push_event (EvFetch (token_request W cookie))
       (set_this (set_currentFacebookAccessToken token (this rt)) rt)).
Proof.
  unfold service_token, fetchLatestFacebookAccessToken. unfold_monad. cbn.
  destruct (fetch W (token_request W cookie)) as [res|m|]; cbn; [|done..].
  destruct (ok res); cbn; [|done].
  destruct (json_body res) as [data|]; cbn; [|done].
  destruct data; cbn; try done.
  destruct (truthy (assoc "success" fields) && truthy (assoc "facebook_access_token" fields));
    cbn; [|done].
  intros [= <-]. unfold call_slice, slice_outcome, template.
  destruct (assoc "facebook_access_token" fields) as [| |b|n|s|xs|fs]; try done.
  unfold_monad. by destruct (template_error (JArr (take 10 xs))).
Qed.

Lemma fetchLatest_none W cookie rt :
  service_token (fetch W (token_request W cookie)) = None ->
  exists o, fetchLatestFacebookAccessToken W cookie rt
            = (o, push_event (EvFetch (token_request W cookie)) rt)
            /\ if hangs W (fetch W (token_request W cookie))
               then o = Suspended
               else exists e, o = Threw e.
Proof.
  unfold service_token, hangs, fetchLatestFacebookAccessToken. unfold_monad. cbn.
  destruct (fetch W (token_request W cookie)) as [res|m|]; cbn; [|by eauto..].
  destruct (ok res); cbn; [|by eauto].
  destruct (json_body res) as [data|]; cbn.
  - destruct data; cbn; eauto.
    destruct (truthy (assoc "success" fields) && truthy (assoc "facebook_access_token" fields));
      cbn; [done|by eauto].
  - destruct (json_failure W res); cbn; eauto.
Qed.

(** What [fetchLatestFacebookAccessToken] does in every case.  When the
    token endpoint answers ok with a truthy [success] flag and a truthy
    [facebook_access_token], the cache is overwritten with that token, and
    the log line that follows decides whether the call returns.  In every
    other case the server object, the cache included, is what it was, and
    the call throws, or stays suspended when the service never
    answers. *)
Lemma fetchLatestFacebookAccessToken_cases (W : World) (cookie : jsval) (rt : Runtime) :
  let r := fetchLatestFacebookAccessToken W cookie rt in
  match service_token (fetch W (token_request W cookie)) with
  | Some token =>
      currentFacebookAccessToken (this (snd r)) = token
      /\ fst r = slice_outcome token
  | None =>
      fst r <> Returned tt /\ this (snd r) = this rt
  end.
Proof.
  cbv zeta.
  destruct (service_token (fetch W (token_request W cookie))) as [token|] eqn:Hs.
  - rewrite (fetchLatest_some _ _ _ _ Hs). done.
  - destruct (fetchLatest_none _ _ rt Hs) as (o & -> & Ho). cbn. split; [|done].
    destruct (hangs W _); [by subst|]. by destruct Ho as [e ->].
Qed.

(** C10 (evaluation of the code at the failing input).  The server holds
    the token of an earlier call, and the token endpoint answers ok with
    [{success: true, facebook_access_token: 12345}].  The call throws a
    TypeError, raised by the log line that follows the assignment, and yet
    the cache has been overwritten: a call that fails has changed the
    cached credential. *)
Theorem token_cached_although_fetch_throws :
  let r := fetchLatestFacebookAccessToken Scenario2.numeric (JStr "abc")
             Scenario2.holding_token in
  fetch Scenario2.numeric (token_request Scenario2.numeric (JStr "abc"))
  = Responded {| status := 200; statusText := "OK";
                 json_body := Some (JObj [("success", JBool true);
                                          ("facebook_access_token", JNum 12345)]) |}
  /\ currentFacebookAccessToken (this Scenario2.holding_token) = JStr "EARLIER_TOKEN"
  /\ fst r = Threw (TypeErrorObj "this.currentFacebookAccessToken.slice is not a function")
  /\ currentFacebookAccessToken (this (snd r)) = JNum 12345.
Proof. vm_compute. done. Qed.

(* --------------------------------------------------------------------- *)
(** *** Preservation of properties of the server object                   *)
(* --------------------------------------------------------------------- *)

(** A property of the server object that survives a write of the token
    cache and a change of the listeners of an assigned bus survives every
    method modelled above except the registration route. *)
Section Preservation.

Variable I : Server -> Prop.
Hypothesis I_token : forall v s, I s -> I (set_currentFacebookAccessToken v s).
Hypothesis I_listeners :
  forall b b' s, messageBus s = Some b -> I s -> I (set_messageBus (Some b') s).

Lemma preserves_ret {A} (a : A) : preserves I (ret a).
Proof. by intros rt. Qed.

Lemma preserves_throw {A} (e : jserror) : preserves I (@throw A e).
Proof. by intros rt. Qed.

Lemma preserves_lift {A} (r : A + jserror) : preserves I (lift r).
Proof. by destruct r; intros rt. Qed.

Lemma preserves_get_this : preserves I get_this.
Proof. by intros rt. Qed.

Lemma preserves_await_outcome {A} (o : outcome A) : preserves I (await o).
Proof. by intros rt. Qed.

Lemma preserves_template v : preserves I (template v).
Proof. unfold template. by destruct (template_error v); intros rt. Qed.

Lemma preserves_log e : preserves I (log e).
Proof. by intros rt. Qed.

Lemma preserves_set_token v : preserves I (modify_this (set_currentFacebookAccessToken v)).
Proof. intros rt H. cbn. by apply I_token. Qed.

Lemma preserves_bind {A B} (c : M A) (k : A -> M B) :
  preserves I c -> (forall a, preserves I (k a)) -> preserves I (bind c k).
Proof.
  intros Hc Hk rt H. unfold bind. specialize (Hc rt H).
  destruct (c rt) as [[a|e|] rt']; cbn in *; [|done..].
  by apply Hk.
Qed.

Lemma preserves_try_catch {A} (body : M A) (handler : jserror -> M A) :
  preserves I body -> (forall e, preserves I (handler e)) ->
  preserves I (try_catch body handler).
Proof.
  intros Hc Hk rt H. unfold try_catch. specialize (Hc rt H).
  destruct (body rt) as [[a|e|] rt']; cbn in *; [done| |done].
  by apply Hk.
Qed.

Ltac preserves_step :=
  match goal with
  | |- preserves I (bind _ _) => apply preserves_bind; [|intros ?]
  | |- preserves I (try_catch _ _) => apply preserves_try_catch; [|intros ?]
  | |- preserves I (ret _) => apply preserves_ret
  | |- preserves I (throw _) => apply preserves_throw
  | |- preserves I (lift _) => apply preserves_lift
  | |- preserves I get_this => apply preserves_get_this
  | |- preserves I (await _) => apply preserves_await_outcome
  | |- preserves I (template _) => apply preserves_template
  | |- preserves I (log _) => apply preserves_log
  | |- preserves I (modify_this (set_currentFacebookAccessToken _)) => apply preserves_set_token
  | |- preserves I (if ?b then _ else _) => destruct b
  | |- preserves I (match ?x with _ => _ end) => destruct x
  end.

Lemma preserves_do_fetch W r : preserves I (do_fetch W r).
Proof. unfold do_fetch. repeat preserves_step. Qed.

Lemma preserves_res_json W res : preserves I (res_json W res).
Proof. unfold res_json. repeat preserves_step. Qed.

Lemma preserves_call_slice v : preserves I (call_slice v).
Proof. unfold call_slice. repeat preserves_step. Qed.

Lemma preserves_fetchLatest W cookie : preserves I (fetchLatestFacebookAccessToken W cookie).
Proof.
  unfold fetchLatestFacebookAccessToken.
  repeat first [ apply preserves_do_fetch | apply preserves_res_json
               | apply preserves_call_slice | preserves_step ].
Qed.

Lemma preserves_fetchFacebookAccessToken W userId :
  preserves I (fetchFacebookAccessToken W userId).
Proof.
  unfold fetchFacebookAccessToken.
  repeat first [ apply preserves_do_fetch | apply preserves_res_json
               | apply preserves_call_slice | preserves_step ].
Qed.

Lemma bus_off_inv w s : I s -> I (bus_off w s).
Proof.
  unfold bus_off. destruct (messageBus s) as [b|] eqn:Hb; [|done].
  by apply (I_listeners b).
Qed.

Lemma onUserMessage_inv l sid content rt :
  I (this rt) -> I (this (onUserMessage l sid content rt)).
Proof.
  unfold onUserMessage. destruct (strict_eq_string sid (l_session l)); [|done].
  cbn. apply bus_off_inv.
Qed.

Lemma deliver_inv e rt : I (this rt) -> I (this (deliver e rt)).
Proof.
  destruct e as [sid content|w]; cbn.
  - unfold emit_user_message. destruct (messageBus (this rt)) as [b|]; [|done].
    generalize (user_message_listeners b). intros ls. revert rt.
    induction ls as [|l ls IH]; intros rt H; cbn; [done|].
    apply IH. by apply onUserMessage_inv.
  - unfold fire_timer. destruct (existsb _ _); [|done]. cbn. apply bus_off_inv.
Qed.

Lemma run_inbox_inv p evs rt : I (this rt) -> I (this (snd (run_inbox p evs rt))).
Proof.
  revert rt. induction evs as [|e evs IH]; intros rt H; cbn.
  - by destruct (promises rt !! p) as [[]|].
  - destruct (promises rt !! p) as [[]|]; cbn; try done;
      apply IH; by apply deliver_inv.
Qed.

Lemma preserves_await p : preserves I (await_promise p).
Proof. intros rt. apply run_inbox_inv. Qed.

Lemma preserves_waitForUserResponse t : preserves I (waitForUserResponse t).
Proof.
  intros rt H. unfold waitForUserResponse.
  destruct (live_session (this rt)); [|done].
  destruct (messageBus (this rt)) as [b|] eqn:Hb; [|done].
  cbn. by apply (I_listeners b).
Qed.

Lemma preserves_sendMessageToUser W m : preserves I (sendMessageToUser W m).
Proof. unfold sendMessageToUser. repeat preserves_step. Qed.

Lemma preserves_reference name : preserves I (reference name).
Proof. unfold reference. repeat preserves_step. Qed.

Lemma preserves_askOrganizationId W : preserves I (askOrganizationId W).
Proof.
  unfold askOrganizationId.
  repeat first [ apply preserves_reference | apply preserves_sendMessageToUser
               | apply preserves_waitForUserResponse | apply preserves_await
               | preserves_step ].
Qed.

Lemma preserves_resolveUserId W m sid org :
  preserves I (resolveUserIdFromSessionOrOrg W m sid org).
Proof.
  unfold resolveUserIdFromSessionOrOrg.
  repeat first [ apply preserves_do_fetch | apply preserves_res_json | preserves_step ].
Qed.

Lemma preserves_resolve_credential W args : preserves I (resolve_credential W args).
Proof.
  unfold resolve_credential.
  repeat first [ apply preserves_askOrganizationId | apply preserves_resolveUserId
               | apply preserves_fetchLatest | preserves_step ].
Qed.

Lemma preserves_dispatch W toolName args : preserves I (dispatch W toolName args).
Proof. unfold dispatch, call_handler. repeat preserves_step. Qed.

Lemma preserves_executeToolCall W toolName args :
  preserves I (executeToolCall W toolName args).
Proof.
  unfold executeToolCall. apply preserves_bind; [apply preserves_resolve_credential|].
  intros _. apply preserves_dispatch.
Qed.

(** The registration route writes the registry too; it preserves [I] when
    an insertion of a truthy value does. *)
Hypothesis I_register :
  forall k v s, truthy v = true -> I s ->
                I (set_sessionUserMap (<[k := v]> (sessionUserMap s)) s).

Lemma preserves_trigger_token_fetch W req : preserves I (trigger_token_fetch W req).
Proof.
  unfold trigger_token_fetch.
  apply preserves_try_catch; [|intros ?; apply preserves_ret].
  apply preserves_bind; [unfold destructure_body; repeat preserves_step|intros _].
  cbv zeta.
  destruct (negb (truthy _) || negb (truthy _)); [apply preserves_ret|].
  destruct (truthy (js_or _ _)) eqn:Hsid; cbn [negb]; [|apply preserves_ret].
  apply preserves_bind.
  - intros rt H. cbn. by apply I_register.
  - intros _.
    repeat first [ apply preserves_do_fetch | apply preserves_res_json | preserves_step ].
Qed.

End Preservation.

(* --------------------------------------------------------------------- *)
(** *** Reachable states                                                   *)
(* --------------------------------------------------------------------- *)

Lemma server_inv_token v s : server_inv s -> server_inv (set_currentFacebookAccessToken v s).
Proof. by intros [? ?]. Qed.

Lemma server_inv_listeners b b' s :
  messageBus s = Some b -> server_inv s -> server_inv (set_messageBus (Some b') s).
Proof. intros Hb [Hn _]. congruence. Qed.

Lemma server_inv_register k v s :
  truthy v = true -> server_inv s ->
  server_inv (set_sessionUserMap (<[k := v]> (sessionUserMap s)) s).
Proof.
  intros Hv [Hn Hr]. split; [done|].
  intros k' v'. cbn. rewrite lookup_insert. case_decide.
  - by intros [= <-].
  - apply Hr.
Qed.

Lemma step_inv rt rt' : step rt rt' -> server_inv (this rt) -> server_inv (this rt').
Proof.
  destruct 1 as [sid rt|W toolName args rt|W req rt|evs rt|e rt]; intros H.
  - by destruct H.
  - by apply (preserves_executeToolCall server_inv server_inv_token server_inv_listeners).
  - by apply (preserves_trigger_token_fetch server_inv server_inv_register).
  - done.
  - by apply (deliver_inv server_inv server_inv_listeners).
Qed.

Lemma reachable_inv rt : reachable rt -> server_inv (this rt).
Proof.
  unfold reachable. revert rt.
  apply (rtc_ind_r (fun rt => server_inv (this rt))).
  - split; [done|]. intros k v. cbn. by rewrite lookup_empty.
  - intros rt rt' _ Hstep IH. by eapply step_inv.
Qed.

(** Nothing in the program ever assigns [this.messageBus]. *)
Lemma reachable_no_bus rt : reachable rt -> messageBus (this rt) = None.
Proof. intros H. by destruct (reachable_inv rt H). Qed.

Lemma reachable_registry_truthy rt k v :
  reachable rt -> sessionUserMap (this rt) !! k = Some v -> truthy v = true.
Proof. intros H. destruct (reachable_inv rt H) as [_ Hr]. apply Hr. Qed.

(** A tool call never writes the registry. *)
Lemma executeToolCall_registry W toolName args rt :
  sessionUserMap (this (snd (executeToolCall W toolName args rt))) = sessionUserMap (this rt).
Proof.
  by apply (preserves_executeToolCall (fun s => sessionUserMap s = sessionUserMap (this rt))).
Qed.

(* ===================================================================== *)
(** ** C1: the static override                                            *)
(* ===================================================================== *)

(** The tiered method honours the override: with
    [FACEBOOK_ACCESS_TOKEN] set, it stores that value and contacts
    nobody. *)
Lemma fetchFacebookAccessToken_uses_override W userId rt tok :
  env_FACEBOOK_ACCESS_TOKEN W = Some tok -> tok <> "" ->
  fetchFacebookAccessToken W userId rt
  = (Returned tt, set_this (set_currentFacebookAccessToken (JStr tok) (this rt)) rt).
Proof.
  intros Henv Hne. unfold fetchFacebookAccessToken. rewrite Henv. cbn.
  destruct (String.eqb_spec tok ""); [done|]. done.
Qed.

(** [executeToolCall] never reads [process.env.FACEBOOK_ACCESS_TOKEN]:
    whatever the override is set to, a tool call behaves the same. *)
Lemma executeToolCall_override_irrelevant W tok toolName args rt :
  executeToolCall (with_override tok W) toolName args rt = executeToolCall W toolName args rt.
Proof. reflexivity. Qed.

(** C1 (evaluation of the code at the failing input).  The process has
    the override "OVERRIDE_TOKEN" configured, the call carries the
    organization id "org1", the session of the active connection is
    registered and the credential service is reachable.  The tool call
    asks the service, caches "SERVICE_TOKEN" and hands that token to the
    handler; the override is not used. *)
Theorem executeToolCall_ignores_static_override :
  env_FACEBOOK_ACCESS_TOKEN Scenario.pinned = Some "OVERRIDE_TOKEN"
  /\ sessionUserMap (this Scenario.registered_quiet) !! Some "t1" = Some (JStr "abc")
  /\ let r := executeToolCall Scenario.pinned (JStr "facebook_list_ad_accounts")
                Scenario.with_org1 Scenario.registered_quiet in
     fst r = Returned (JObj [("tool", JStr "listAdAccounts");
                             ("args", Scenario.with_org1);
                             ("token", JStr "SERVICE_TOKEN")])
     /\ currentFacebookAccessToken (this (snd r)) = JStr "SERVICE_TOKEN"
     /\ trace (snd r)
        = [EvFetch (token_request Scenario.pinned (JStr "abc"));
           EvHandler "facebook_list_ad_accounts" Scenario.with_org1 (JStr "SERVICE_TOKEN")].
Proof. vm_compute. done. Qed.

(* ===================================================================== *)
(** ** C2: a call without organization id                                 *)
(* ===================================================================== *)

(** The prompt never starts: [askOrganizationId] stops at its first
    statement, in every state. *)
Lemma askOrganizationId_throws W rt :
  askOrganizationId W rt = (Threw (ReferenceErrorObj "sendMessageToUser is not defined"), rt).
Proof. reflexivity. Qed.

(** A call whose args carry no (truthy) organization id fails at once and
    leaves the state, the interaction log included, as it was: no message
    is sent, no wait is registered, no service is contacted.  This holds
    with and without an active connection. *)
Lemma missing_organization_id_fails W toolName args v rt :
  get_prop args "organization_id" = inl v -> truthy v = false ->
  executeToolCall W toolName args rt
  = (Threw (ReferenceErrorObj "sendMessageToUser is not defined"), rt).
Proof.
  intros Hget Hv. unfold executeToolCall, resolve_credential.
  rewrite Hget. unfold bind at 1 2. cbn [lift ret]. unfold bind at 1.
  rewrite Hv. cbn [negb]. unfold bind at 1. by rewrite askOrganizationId_throws.
Qed.

(** C2 (evaluation of the code at the failing input).  The server has an
    active SSE connection with session id "t1" and receives a call without
    organization id.  The call throws a ReferenceError immediately; the
    state after it is the state before it, so no prompt went out over the
    connection (no 'send_message' event in the log) and no wait for a
    reply was set up (no promise, no timer, no listener). *)
Theorem missing_organization_id_never_prompts :
  live_session (this Scenario.connected) = Some "t1"
  /\ executeToolCall Scenario.online (JStr "facebook_list_ad_accounts") (JObj [])
       Scenario.connected
     = (Threw (ReferenceErrorObj "sendMessageToUser is not defined"), Scenario.connected)
  /\ trace Scenario.connected = []
  /\ promises Scenario.connected = []
  /\ timers Scenario.connected = [].
Proof.
  split; [reflexivity|]. split; [|done].
  by apply (missing_organization_id_fails _ _ _ JUndefined).
Qed.

(* ===================================================================== *)
(** ** C3 and C4: the reflective call and unknown tools                   *)
(* ===================================================================== *)

Lemma tool_names_eq :
  tool_names = ["facebook_list_ad_accounts"; "facebook_fetch_pagination_url";
                "facebook_get_details_of_ad_account"; "facebook_get_adaccount_insights";
                "facebook_get_activities_by_adaccount"; "facebook_get_ad_creatives"].
Proof. reflexivity. Qed.

(** C3 (counterexample).  With the credential service unreachable, the
    reflective call does not succeed, and the log shows that credential
    resolution was attempted for it: the organization fallback was
    fetched. *)
Lemma list_tools_needs_credentials :
  let r := executeToolCall Scenario.offline (JStr "_list_tools") Scenario.with_org1
             Scenario.connected in
  fst r = Threw (TypeErrorObj "fetch failed")
  /\ trace (snd r) = [EvFetch (fallback_request Scenario.offline (JStr "org1"))].
Proof. vm_compute. done. Qed.

(** C3 (amended).  The reflective call goes through credential
    resolution like every other call.  When resolution returns, the call
    returns the list of registered tool names, in the state resolution
    left and without invoking a handler; when resolution throws or stays
    suspended, so does the call. *)
Theorem list_tools_after_resolution (W : World) (args : jsval) (rt : Runtime) :
  executeToolCall W (JStr "_list_tools") args rt
  = match resolve_credential W args rt with
    | (Returned _, rt') => (Returned list_tools_result, rt')
    | (Threw e, rt') => (Threw e, rt')
    | (Suspended, rt') => (Suspended, rt')
    end.
Proof.
  unfold executeToolCall, bind.
  by destruct (resolve_credential W args rt) as [[[]|e|] rt'].
Qed.

(** C4 (counterexample).  "facebook_get_ad_thumbnails" is no key of the
    catalogue, yet a call to it is not rejected as an unknown tool: the
    switch has a case for it, which throws a different error. *)
Lemma disabled_tool_is_not_reported_unknown :
  in_catalogue "facebook_get_ad_thumbnails" = false
  /\ dispatch Scenario.online (JStr "facebook_get_ad_thumbnails") Scenario.with_org1
       Scenario.registered_quiet
     = (Threw (ErrorObj "get_ad_thumbnails_embedded tool is temporarily disabled"),
        Scenario.registered_quiet)
  /\ fst (executeToolCall Scenario.online (JStr "facebook_get_ad_thumbnails")
            Scenario.with_org1 Scenario.registered_quiet)
     = Threw (ErrorObj "get_ad_thumbnails_embedded tool is temporarily disabled")
  /\ "get_ad_thumbnails_embedded tool is temporarily disabled"
     <> "Unknown tool: facebook_get_ad_thumbnails".
Proof. vm_compute. done. Qed.

(** The error the [default] case of the switch throws: the one built from
    the tool name, or the TypeError of the conversion of a tool name that
    cannot be converted to a string. *)
Lemma dispatch_unhandled W toolName args rt :
  handled toolName = false ->
  dispatch W toolName args rt
  = (Threw (match template_error toolName with
            | Some e => e
            | None => ErrorObj ("Unknown tool: " +:+ to_template_string toolName)
            end), rt).
Proof.
  intros H. unfold dispatch, template, bind, throw, ret.
  destruct toolName as [| |b|n|name|xs|fields]; cbn [strict_eq_string];
    try (by destruct (template_error _)).
  unfold handled, in_catalogue in H. rewrite tool_names_eq in H. cbn [existsb] in H.
  rewrite !orb_false_iff in H. destruct_and!.
  repeat match goal with
         | Heq : String.eqb name ?s = false |- _ => rewrite Heq; clear Heq
         end.
  reflexivity.
Qed.

(** C4 (amended).  For every call whose [toolName] is none of the names
    the switch handles (the six catalogue keys, "_list_tools" and
    "facebook_get_ad_thumbnails"), the dispatch step fails without
    touching the state, whatever the args and whichever route or adapter
    produced the call, and the whole call never returns a result.  For a
    tool name that is a string the error is [Unknown tool: <toolName>];
    for any other value the name is converted as in a template literal,
    and a value that cannot be converted makes the error the TypeError of
    that conversion. *)
Theorem unknown_tool_rejected (W : World) (toolName args : jsval) (rt : Runtime) :
  handled toolName = false ->
  dispatch W toolName args rt
  = (Threw (match template_error toolName with
            | Some e => e
            | None => ErrorObj ("Unknown tool: " +:+ to_template_string toolName)
            end), rt)
  /\ (forall name, toolName = JStr name ->
        dispatch W toolName args rt = (Threw (ErrorObj ("Unknown tool: " +:+ name)), rt))
  /\ forall v, fst (executeToolCall W toolName args rt) <> Returned v.
Proof.
  intros H. split; [by apply dispatch_unhandled|]. split.
  - intros name ->. by rewrite dispatch_unhandled.
  - intros v. unfold executeToolCall, bind.
    destruct (resolve_credential W args rt) as [[[]|e|] rt']; cbn; try done.
    by rewrite dispatch_unhandled.
Qed.

(** The REST route /tools/facebook_get_campaign_details calls a tool the
    switch does not know. *)
Lemma unknown_tool_rejected_witness :
  handled (JStr "facebook_get_campaign_details") = false
  /\ dispatch Scenario.online (JStr "facebook_get_campaign_details") Scenario.with_org1
       Scenario.registered_quiet
     = (Threw (ErrorObj "Unknown tool: facebook_get_campaign_details"),
        Scenario.registered_quiet)
  /\ (forall name, JStr "facebook_get_campaign_details" = JStr name ->
        dispatch Scenario.online (JStr "facebook_get_campaign_details") Scenario.with_org1
          Scenario.registered_quiet
        = (Threw (ErrorObj ("Unknown tool: " +:+ name)), Scenario.registered_quiet))
  /\ forall v, fst (executeToolCall Scenario.online (JStr "facebook_get_campaign_details")
                      Scenario.with_org1 Scenario.registered_quiet) <> Returned v.
Proof.
  split; [reflexivity|].
  apply (unknown_tool_rejected Scenario.online (JStr "facebook_get_campaign_details")
           Scenario.with_org1 Scenario.registered_quiet).
  reflexivity.
Defined.

(* ===================================================================== *)
(** ** C5: argument validation                                            *)
(* ===================================================================== *)

(** C5 (counterexample).  The schema of facebook_fetch_pagination_url
    requires [url]; a call without it is invalid, with [url] as the
    offending field, yet the handler is invoked with exactly those args
    and the call returns the handler's result. *)
Lemma invalid_arguments_reach_handler :
  let bad := [("organization_id", JStr "org1")] in
  (exists sch, lookup_schema "facebook_fetch_pagination_url" TOOL_SCHEMAS = Some sch
               /\ validate_args sch bad = Some "url")
  /\ let r := executeToolCall Scenario.online (JStr "facebook_fetch_pagination_url")
                (JObj bad) Scenario.registered_quiet in
     fst r = Returned (JObj [("tool", JStr "fetchPaginationUrl"); ("args", JObj bad);
                             ("token", JStr "SERVICE_TOKEN")])
     /\ handler_events (trace (snd r))
        = [EvHandler "facebook_fetch_pagination_url" (JObj bad) (JStr "SERVICE_TOKEN")].
Proof.
  cbv zeta. split.
  - eexists. split; [reflexivity|]. vm_compute. reflexivity.
  - vm_compute. done.
Qed.

Lemma dispatch_catalogue W name args rt :
  in_catalogue name = true ->
  dispatch W (JStr name) args rt
  = (handler_of W name args (currentFacebookAccessToken (this rt)),
     push_event (EvHandler name args (currentFacebookAccessToken (this rt))) rt).
Proof.
  unfold in_catalogue. rewrite tool_names_eq. cbn [existsb].
  rewrite !orb_true_iff. intros H.
  repeat (destruct H as [H|H]); try done;
    apply String.eqb_eq in H; subst name; reflexivity.
Qed.

(** C5 (amended).  [executeToolCall] does not validate [args] against the
    catalogue: for every catalogue tool and every [args], once credential
    resolution has returned, the tool's handler is invoked with those very
    [args] and the cached token, and what the handler does (it returns,
    it throws, or it never settles) is the outcome of the call.  No call
    is rejected for its arguments. *)
Theorem handler_invoked_without_validation
    (W : World) (name : string) (args : jsval) (rt : Runtime) :
  in_catalogue name = true ->
  executeToolCall W (JStr name) args rt
  = match resolve_credential W args rt with
    | (Returned _, rt') =>
        (handler_of W name args (currentFacebookAccessToken (this rt')),
         push_event (EvHandler name args (currentFacebookAccessToken (this rt'))) rt')
    | (Threw e, rt') => (Threw e, rt')
    | (Suspended, rt') => (Suspended, rt')
    end.
Proof.
  intros H. unfold executeToolCall, bind.
  destruct (resolve_credential W args rt) as [[[]|e|] rt']; try done.
  by apply dispatch_catalogue.
Qed.

Lemma handler_invoked_without_validation_witness :
  in_catalogue "facebook_get_ad_creatives" = true
  /\ executeToolCall Scenario.online (JStr "facebook_get_ad_creatives")
       (JObj [("organization_id", JStr "org1"); ("ad_ids", JStr "not-an-array")])
       Scenario.registered_quiet
     = match resolve_credential Scenario.online
               (JObj [("organization_id", JStr "org1"); ("ad_ids", JStr "not-an-array")])
               Scenario.registered_quiet with
       | (Returned _, rt') =>
           (handler_of Scenario.online "facebook_get_ad_creatives"
              (JObj [("organization_id", JStr "org1"); ("ad_ids", JStr "not-an-array")])
              (currentFacebookAccessToken (this rt')),
            push_event
              (EvHandler "facebook_get_ad_creatives"
                 (JObj [("organization_id", JStr "org1"); ("ad_ids", JStr "not-an-array")])
                 (currentFacebookAccessToken (this rt'))) rt')
       | (Threw e, rt') => (Threw e, rt')
       | (Suspended, rt') => (Suspended, rt')
       end.
Proof.
  split; [reflexivity|].
  apply (handler_invoked_without_validation Scenario.online "facebook_get_ad_creatives").
  reflexivity.
Defined.

(* ===================================================================== *)
(** ** C6 and C7: caller identity                                         *)
(* ===================================================================== *)

Lemma resolve_hit W m sid org rt u :
  m !! sid = Some u -> truthy u = true ->
  resolveUserIdFromSessionOrOrg W m sid org rt = (Returned u, rt).
Proof.
  intros Hm Hu. unfold resolveUserIdFromSessionOrOrg. rewrite Hm. cbn. by rewrite Hu.
Qed.

(** C6.  In every reachable state of the server, if the session id of the
    active connection (or any other key) is present in the session
    registry, resolution returns the registered value and leaves the
    state, the interaction log included, untouched: the organization
    fallback is not fetched, whatever the organization id. *)
Theorem registered_session_short_circuits_fallback
    (W : World) (rt : Runtime) (sid : option string) (u organizationId : jsval) :
  reachable rt ->
  sessionUserMap (this rt) !! sid = Some u ->
  resolveUserIdFromSessionOrOrg W (sessionUserMap (this rt)) sid organizationId rt
  = (Returned u, rt).
Proof.
  intros Hreach Hm. apply resolve_hit; [done|].
  by eapply reachable_registry_truthy.
Qed.

Lemma registered_reachable : reachable Scenario.registered.
Proof.
  unfold reachable.
  eapply rtc_l; [apply (step_connect "t1")|].
  eapply rtc_l; [apply (step_register Scenario.online Scenario.registration)|].
  apply rtc_refl.
Qed.

Lemma registered_session_short_circuits_fallback_witness :
  reachable Scenario.registered
  /\ sessionUserMap (this Scenario.registered) !! active_sessionId (this Scenario.registered)
     = Some (JStr "abc")
  /\ resolveUserIdFromSessionOrOrg Scenario.offline (sessionUserMap (this Scenario.registered))
       (active_sessionId (this Scenario.registered)) (JStr "org1") Scenario.registered
     = (Returned (JStr "abc"), Scenario.registered).
Proof.
  split; [apply registered_reachable|].
  split; [vm_compute; reflexivity|].
  apply (registered_session_short_circuits_fallback Scenario.offline Scenario.registered
           (active_sessionId (this Scenario.registered)) (JStr "abc") (JStr "org1")).
  - apply registered_reachable.
  - vm_compute. reflexivity.
Defined.

(** On a registry miss with an organization id that converts to a string,
    exactly one request goes out, to the organization fallback, and its
    answer decides the call: a failure of the request, a non-ok status, a
    body without [success] or without [user_id] end the resolution with
    an error; otherwise the [session_id] field of the answer is returned,
    provided the log line can print it. *)
Lemma resolve_miss W m sid org rt :
  truthy (default JUndefined (m !! sid)) = false -> truthy org = true ->
  resolveUserIdFromSessionOrOrg W m sid org rt
  = match template_error org with
    | Some e => (Threw e, rt)
    | None =>
        (fallback_outcome W (fetch W (fallback_request W org)),
         push_event (EvFetch (fallback_request W org)) rt)
    end.
Proof.
  intros Hm Ho. unfold resolveUserIdFromSessionOrOrg, fallback_outcome.
  rewrite Hm, Ho. unfold template. unfold_monad. cbn.
  destruct (template_error org); [done|]. cbn.
  destruct (fetch W (fallback_request W org)) as [res|msg|]; cbn; [|done..].
  destruct (ok res); cbn; [|done].
  destruct (json_body res) as [data|]; cbn; [|by destruct (json_failure W res)].
  destruct data as [| |b|n|s|xs|fields]; cbn; try done.
  destruct (truthy (assoc "success" fields)), (truthy (assoc "user_id" fields)); cbn; try done.
  by destruct (template_error (assoc "session_id" fields)).
Qed.

(** C7 (evaluation of the code at the failing input).  The registry does
    not know the session, and the organization fallback answers
    [{success: true, user_id: "u1", session_id: "s9"}].  Resolution asks
    the fallback once and returns "s9", the [session_id] of the answer,
    not the user "u1"; that value is what the token request then carries. *)
Theorem fallback_returns_session_id :
  fetch Scenario.online (fallback_request Scenario.online (JStr "org1"))
  = Responded {| status := 200; statusText := "OK";
                 json_body := Some (JObj [("success", JBool true);
                                          ("user_id", JStr "u1");
                                          ("session_id", JStr "s9")]) |}
  /\ resolveUserIdFromSessionOrOrg Scenario.online (sessionUserMap (this Scenario.connected))
       (active_sessionId (this Scenario.connected)) (JStr "org1") Scenario.connected
     = (Returned (JStr "s9"),
        push_event (EvFetch (fallback_request Scenario.online (JStr "org1"))) Scenario.connected)
  /\ trace (snd (executeToolCall Scenario.online (JStr "_list_tools") Scenario.with_org1
                   Scenario.connected))
     = [EvFetch (fallback_request Scenario.online (JStr "org1"));
        EvFetch (token_request Scenario.online (JStr "s9"))].
Proof. vm_compute. done. Qed.

(* ===================================================================== *)
(** ** C8: the wait for the user's reply                                  *)
(* ===================================================================== *)

(** Without a bus the wait is over before it starts: the promise is
    created rejected, no listener is registered and no timer is set.  That
    is the case in every reachable state. *)
Lemma waitForUserResponse_without_bus t rt :
  messageBus (this rt) = None ->
  exists e, waitForUserResponse t rt
            = (Returned (length (promises rt)), set_promises (promises rt ++ [Rejected e]) rt).
Proof.
  intros Hb. unfold waitForUserResponse. rewrite Hb.
  destruct (live_session (this rt)); eauto.
Qed.

Lemma waitForUserResponse_reachable t rt :
  reachable rt ->
  exists e, waitForUserResponse t rt
            = (Returned (length (promises rt)), set_promises (promises rt ++ [Rejected e]) rt).
Proof. intros H. apply waitForUserResponse_without_bus. by apply reachable_no_bus. Qed.

(** With an event emitter attached, the expiry path does what it should:
    the wait fails with the timeout error, its listener is gone, and a
    reply that arrives afterwards on the same session is not consumed. *)
Lemma wait_timeout_releases_listener :
  let r := wait_and_await None
             (Scenario.bus_attached [TimerExpires 0; Scenario.reply_org1]) in
  fst r = Threw (ErrorObj "User response timed out.")
  /\ listeners_of (snd r) = []
  /\ timers (snd r) = []
  /\ inbox (snd r) = [Scenario.reply_org1]
  /\ deliver Scenario.reply_org1 (snd r) = snd r.
Proof. vm_compute. done. Qed.

(** C8 (evaluation of the code at the failing inputs).  First, the server
    as the program builds it, with an active connection "t1": the wait
    does not wait; it fails at once with a TypeError because
    [this.messageBus] is not assigned, so no timeout can ever be
    reported.  Second, the same server with an event emitter attached and
    a reply arriving before the bound: the wait returns the reply and
    removes its listener, but its timer (60000 ms) is still pending
    afterwards; it is dropped only when it expires. *)
Theorem wait_for_user_response_defects :
  (let r := wait_and_await None Scenario.connected in
   live_session (this Scenario.connected) = Some "t1"
   /\ fst r = Threw (TypeErrorObj "Cannot read properties of undefined (reading 'on')")
   /\ timers (snd r) = []
   /\ listeners_of (snd r) = [])
  /\
  (let r := wait_and_await None (Scenario.bus_attached [Scenario.reply_org1]) in
   fst r = Returned (JObj [("text", JStr " org1 ")])
   /\ listeners_of (snd r) = []
   /\ timers (snd r) = [ {| t_wait := 0; t_delay := 60000 |} ]
   /\ timers (deliver (TimerExpires 0) (snd r)) = []).
Proof. vm_compute. done. Qed.

(* ===================================================================== *)
(** ** C9: the registration route                                         *)
(* ===================================================================== *)

Lemma registration_accepted_inv req :
  registration_accepted req = true ->
  (exists fields, body req = JObj fields)
  /\ truthy (get_prop_opt (body req) "access_token") = true
  /\ truthy (get_prop_opt (body req) "user_id") = true
  /\ truthy (derived_session_id req) = true.
Proof.
  unfold registration_accepted. rewrite !andb_true_iff. intros [[Ha Hu] Hs].
  split; [|done]. destruct (body req); try done. by eexists.
Qed.

(** A request that passes the two guards of the route is written to the
    registry at once: the registry gets the derived session identifier as
    value under the key [this.activeSseTransport?.sessionId].  The log
    line that follows converts the session identifier and [user_id] to
    strings; when that throws, the route answers 500 and the credential
    service is not asked. *)
Lemma trigger_token_fetch_unprintable W req rt :
  registration_accepted req = true ->
  registration_printable req = false ->
  exists html,
    trigger_token_fetch W req rt
    = (Returned {| reply_status := 500; reply_html := html |}, recorded req rt).
Proof.
  intros Hacc Hp. destruct (registration_accepted_inv req Hacc) as ([fields Hb] & Ha & Hu & Hs).
  unfold trigger_token_fetch, registration_printable, recorded, derived_session_id in *.
  rewrite Hb in *. unfold template. unfold_monad. cbn in *. rewrite Ha, Hu, Hs. cbn.
  destruct (template_error (js_or _ _)); cbn; [by eauto|].
  destruct (template_error (assoc "user_id" fields)); cbn; [by eauto|done].
Qed.

(** Otherwise the local address is looked up, and the route stays
    suspended when that lookup never settles. *)
Lemma trigger_token_fetch_no_address W req rt :
  registration_accepted req = true ->
  registration_printable req = true ->
  getLocalIPv4 W = Suspended ->
  trigger_token_fetch W req rt = (Suspended, recorded req rt).
Proof.
  intros Hacc Hp Hip. destruct (registration_accepted_inv req Hacc) as ([fields Hb] & Ha & Hu & Hs).
  unfold trigger_token_fetch, registration_printable, recorded, derived_session_id in *.
  rewrite Hb in *. unfold template, await. unfold_monad. cbn in *. rewrite Ha, Hu, Hs. cbn.
  destruct (template_error (js_or _ _)); [done|].
  destruct (template_error (assoc "user_id" fields)); [done|]. cbn.
  by rewrite Hip.
Qed.

(** With the address looked up (or the lookup failed), one POST with
    [user_id], [session_id], [server_ip] and [organization_id] goes to
    the session-save endpoint, whose answer decides the reply. *)
Lemma trigger_token_fetch_accepted W req rt :
  registration_accepted req = true ->
  registration_printable req = true ->
  getLocalIPv4 W <> Suspended ->
  exists o,
    trigger_token_fetch W req rt = (o, after_registration W req rt)
    /\ if save_hangs W (fetch W (registration_request W req))
       then o = Suspended
       else exists html,
              o = Returned {| reply_status :=
                                if save_acknowledged (fetch W (registration_request W req))
                                then 200%N else 500%N;
                              reply_html := html |}.
Proof.
  intros Hacc Hp Hip. destruct (registration_accepted_inv req Hacc) as ([fields Hb] & Ha & Hu & Hs).
  unfold trigger_token_fetch, registration_printable, after_registration, recorded,
    registration_request, local_ip, save_hangs, save_acknowledged, derived_session_id in *.
  rewrite Hb in *. unfold template, await. unfold_monad. cbn in *. rewrite Ha, Hu, Hs. cbn.
  destruct (template_error (js_or _ _)); [done|].
  destruct (template_error (assoc "user_id" fields)); [done|]. cbn.
  destruct (getLocalIPv4 W) as [ip|e|]; [| |done]; cbn.
  all: destruct (fetch W _) as [res|msg|]; cbn; [|by eauto..].
  all: destruct (json_body res) as [data|]; cbn;
         [|destruct (json_failure W res); cbn; by eauto].
  all: destruct data as [| |b|n|s|xs|fs]; cbn; eauto.
  all: destruct (truthy (assoc "success" fs)); cbn; eauto.
  all: destruct (template_error (js_or _ _)); cbn; eauto.
Qed.

(** C9 (evaluation of the code at the failing input).  A registration for
    user "u1" of organization "org1" arrives with the header
    'session-id: abc' while the SSE connection "t1" is the active one.
    The route answers 200 and forwards user, session, server address and
    organization to the session-save endpoint, but the registry entry it
    writes is "t1" -> "abc": the key is the active connection's id, not
    the session identifier derived from the request, and the value is
    that session identifier, not the user. *)
Theorem registration_records_transport_to_session :
  let r := trigger_token_fetch Scenario.online Scenario.registration Scenario.connected in
  derived_session_id Scenario.registration = JStr "abc"
  /\ reply_status <$> (match fst r with Returned x => Some x | _ => None end) = Some 200%N
  /\ map_to_list (sessionUserMap (this (snd r))) = [(Some "t1", JStr "abc")]
  /\ sessionUserMap (this (snd r)) !! Some "abc" = None
  /\ trace (snd r)
     = [EvFetch {| req_url := Scenario.base +:+ "/mcp-api/save_user_session";
                   req_method := "POST";
                   req_headers := [("Content-Type", JStr "application/json")];
                   req_body := Some (JObj [("user_id", JStr "u1");
                                           ("session_id", JStr "abc");
                                           ("server_ip", JStr "10.0.0.7");
                                           ("organization_id", JStr "org1")]) |}].
Proof. vm_compute. done. Qed.

(* ===================================================================== *)
(** ** The tiered token lookup [fetchFacebookAccessToken]                 *)
(* ===================================================================== *)

(** X1.  The tiered lookup prefers what the process holds itself: when
    [FACEBOOK_ACCESS_TOKEN] is set, or else when the local storage holds
    a token, that token (the override first) is cached and the lookup
    returns without contacting the credential service, whatever the user
    id; nothing else of the state changes and nothing is logged. *)
Theorem fetchFacebookAccessToken_prefers_process_tokens
    (W : World) (userId : jsval) (rt : Runtime) :
  truthy (js_or (env_override W) (stored_token W)) = true ->
  fetchFacebookAccessToken W userId rt
  = (Returned tt,
     set_this (set_currentFacebookAccessToken
                 (js_or (env_override W) (stored_token W)) (this rt)) rt).
Proof.
  unfold fetchFacebookAccessToken, js_or, stored_token. fold (env_override W).
  destruct (truthy (env_override W)); [done|].
  unfold bind, await. destruct (TokenStorage_getToken W) as [v|e|]; [|done..].
  by intros ->.
Qed.

Lemma fetchFacebookAccessToken_prefers_process_tokens_witness :
  truthy (js_or (env_override Scenario.pinned) (stored_token Scenario.pinned)) = true
  /\ fetchFacebookAccessToken Scenario.pinned (JStr "u1") Scenario.connected
     = (Returned tt,
        set_this (set_currentFacebookAccessToken (JStr "OVERRIDE_TOKEN")
                    (this Scenario.connected)) Scenario.connected)
  /\ fetchFacebookAccessToken Scenario2.stored (JStr "u1") Scenario.connected
     = (Returned tt,
        set_this (set_currentFacebookAccessToken (JStr "LOCAL_TOKEN")
                    (this Scenario.connected)) Scenario.connected).
Proof.
  split; [reflexivity|]. split.
  - apply (fetchFacebookAccessToken_prefers_process_tokens Scenario.pinned (JStr "u1")
             Scenario.connected). reflexivity.
  - apply (fetchFacebookAccessToken_prefers_process_tokens Scenario2.stored (JStr "u1")
             Scenario.connected). reflexivity.
Defined.

(** X2.  With no override and no stored token (the storage answers with
    a falsy value) the credential service is the last resort.  Without a
    user id the lookup throws at once and contacts nobody.  With a user
    id that cannot be converted to a string for the query string, the
    lookup throws the TypeError of that conversion and contacts nobody
    either.  Otherwise it calls [fetch] exactly once, for the token
    endpoint with the user id in the query string.  The cache is written
    exactly when the answer carries a token (ok status, truthy [success]
    and [facebook_access_token]); the lookup then returns when the token
    is a string, and throws from its log line, with the cache already
    written, when the token has no [slice] method.  Without a token in
    the answer the server object is unchanged and the lookup throws (or
    stays suspended when the service never answers): the fallback to the
    override in the catch block cannot apply, the override being
    unset. *)
Theorem fetchFacebookAccessToken_service_last
    (W : World) (userId stored : jsval) (rt : Runtime) :
  truthy (env_override W) = false ->
  TokenStorage_getToken W = Returned stored ->
  truthy stored = false ->
  let r := fetchFacebookAccessToken W userId rt in
  if truthy userId
  then
    match template_error userId with
    | Some e => r = (Threw e, rt)
    | None =>
        trace (snd r) = trace rt ++ [EvFetch (token_by_user_request W userId)]
        /\ match service_token (fetch W (token_by_user_request W userId)) with
           | Some token =>
               this (snd r) = set_currentFacebookAccessToken token (this rt)
               /\ fst r = slice_outcome token
           | None =>
               this (snd r) = this rt
               /\ if hangs W (fetch W (token_by_user_request W userId))
                  then fst r = Suspended
                  else exists e, fst r = Threw e
           end
    end
  else
    r = (Threw (ErrorObj
                  "No Facebook access token available. Please login at /facebook-auth-helper"),
         rt).
Proof.
  intros He Hget Hl. cbv zeta. unfold fetchFacebookAccessToken, service_token, hangs.
  fold (env_override W). rewrite He, Hget.
  unfold template, await, token_by_user_request. unfold_monad. cbn. rewrite Hl.
  destruct (truthy userId); [|done].
  destruct (template_error userId); [done|]. cbn.
  destruct (fetch W _) as [res|m|]; cbn; [|by eauto..].
  destruct (ok res); cbn; [|by eauto].
  destruct (json_body res) as [data|]; cbn;
    [|destruct (json_failure W res); cbn; by eauto].
  destruct data as [| |b|n|s|xs|fields]; cbn; eauto.
  destruct (truthy (assoc "success" fields) && truthy (assoc "facebook_access_token" fields));
    cbn; [|by eauto].
  unfold call_slice, slice_outcome, template.
  destruct (assoc "facebook_access_token" fields) as [| |b|n|s|xs|fs]; try done.
  unfold_monad. by destruct (template_error (JArr (take 10 xs))).
Qed.

Lemma fetchFacebookAccessToken_service_last_witness :
  truthy (env_override Scenario.online) = false
  /\ TokenStorage_getToken Scenario.online = Returned JNull
  /\ truthy JNull = false
  /\ fetchFacebookAccessToken Scenario.online JNull Scenario.connected
     = (Threw (ErrorObj
                 "No Facebook access token available. Please login at /facebook-auth-helper"),
        Scenario.connected).
Proof.
  split; [reflexivity|]. split; [reflexivity|]. split; [reflexivity|].
  apply (fetchFacebookAccessToken_service_last Scenario.online JNull JNull Scenario.connected);
    reflexivity.
Defined.

(* ===================================================================== *)
(** ** The registration route and the registry lookup                     *)
(* ===================================================================== *)

(** Whatever happens after the registry write, the server object is the
    one with the new entry. *)
Lemma trigger_token_fetch_server W req rt :
  registration_accepted req = true ->
  this (snd (trigger_token_fetch W req rt)) = this (recorded req rt).
Proof.
  intros Hacc. destruct (registration_printable req) eqn:Hp.
  - destruct (getLocalIPv4 W) as [ip|e|] eqn:Hip.
    + destruct (trigger_token_fetch_accepted W req rt Hacc Hp) as (o & -> & _); [|done].
      by rewrite Hip.
    + destruct (trigger_token_fetch_accepted W req rt Hacc Hp) as (o & -> & _); [|done].
      by rewrite Hip.
    + by rewrite (trigger_token_fetch_no_address W req rt Hacc Hp Hip).
  - by destruct (trigger_token_fetch_unprintable W req rt Hacc Hp) as [html ->].
Qed.

Lemma trigger_token_fetch_rejected W req rt :
  registration_accepted req = false ->
  exists reply,
    trigger_token_fetch W req rt = (Returned reply, rt)
    /\ (reply_status reply = 400%N \/ reply_status reply = 500%N).
Proof.
  unfold registration_accepted, trigger_token_fetch, derived_session_id.
  intros Hrej. unfold_monad.
  destruct (body req) as [| |b|n|s|xs|fields] eqn:Hb; cbn in *; eauto.
  destruct (truthy (assoc "access_token" fields)); cbn in *; [|by eauto].
  destruct (truthy (assoc "user_id" fields)); cbn in *; [|by eauto].
  rewrite Hrej. cbn. eauto.
Qed.

(** X3.  The registration route answers every request for which its two
    awaited external calls settle (the lookup of the local address, and
    the request to the session-save endpoint with its body): whatever the
    body, the headers and the state, it then sends one reply, with status
    200, 400 or 500, and lets no exception escape.  A request that is
    refused does not depend on either call. *)
Theorem trigger_token_fetch_always_replies
    (W : World) (req : ExpressRequest) (rt : Runtime) :
  getLocalIPv4 W <> Suspended ->
  save_hangs W (fetch W (registration_request W req)) = false ->
  exists reply,
    fst (trigger_token_fetch W req rt) = Returned reply
    /\ (reply_status reply = 200%N \/ reply_status reply = 400%N
        \/ reply_status reply = 500%N).
Proof.
  intros Hip Hsave. destruct (registration_accepted req) eqn:Hacc.
  - destruct (registration_printable req) eqn:Hp.
    + destruct (trigger_token_fetch_accepted W req rt Hacc Hp Hip) as (o & -> & Ho).
      rewrite Hsave in Ho. destruct Ho as [html ->].
      eexists. split; [reflexivity|]. cbn. destruct (save_acknowledged _); auto.
    + destruct (trigger_token_fetch_unprintable W req rt Hacc Hp) as [html ->].
      eexists. split; [reflexivity|]. cbn. auto.
  - destruct (trigger_token_fetch_rejected W req rt Hacc) as (reply & -> & H).
    exists reply. split; [done|]. destruct H; auto.
Qed.

Lemma trigger_token_fetch_always_replies_witness :
  getLocalIPv4 Scenario.offline <> Suspended
  /\ save_hangs Scenario.offline
       (fetch Scenario.offline
          (registration_request Scenario.offline Scenario.registration)) = false
  /\ exists reply,
       fst (trigger_token_fetch Scenario.offline Scenario.registration Scenario.connected)
       = Returned reply
       /\ (reply_status reply = 200%N \/ reply_status reply = 400%N
           \/ reply_status reply = 500%N).
Proof.
  split; [discriminate|]. split; [reflexivity|].
  apply (trigger_token_fetch_always_replies Scenario.offline Scenario.registration
           Scenario.connected); [discriminate|reflexivity].
Defined.

(** X4.  A registration request that lacks [access_token], [user_id] or
    a session identifier (no 'session-id' header and no [session_id]
    cookie) is refused with status 400 (500 when the body cannot be read
    at all) and has no effect: the registry is not written and the
    credential service is not contacted. *)
Theorem registration_refused_changes_nothing
    (W : World) (req : ExpressRequest) (rt : Runtime) :
  registration_accepted req = false ->
  snd (trigger_token_fetch W req rt) = rt
  /\ exists reply, fst (trigger_token_fetch W req rt) = Returned reply
                   /\ reply_status reply <> 200%N.
Proof.
  intros Hrej. destruct (trigger_token_fetch_rejected W req rt Hrej) as (reply & -> & H).
  split; [done|]. exists reply. split; [done|]. destruct H as [-> | ->]; done.
Qed.

Lemma registration_refused_changes_nothing_witness :
  registration_accepted Scenario2.anonymous_registration = false
  /\ snd (trigger_token_fetch Scenario.online Scenario2.anonymous_registration
            Scenario.connected) = Scenario.connected
  /\ exists reply,
       fst (trigger_token_fetch Scenario.online Scenario2.anonymous_registration
              Scenario.connected) = Returned reply
       /\ reply_status reply <> 200%N.
Proof.
  split; [reflexivity|].
  apply (registration_refused_changes_nothing Scenario.online
           Scenario2.anonymous_registration Scenario.connected).
  reflexivity.
Defined.

(** X5.  An accepted registration is recorded before the credential
    service is asked and is not taken back: whatever happens afterwards,
    the server object holds the new registry entry.  When the log line of
    the route can print the session identifier and [user_id], and the
    lookup of the local address settles, exactly one POST to the
    session-save endpoint is logged, and the reply, sent once that
    exchange completes, is 200 exactly when the answer is JSON with a
    truthy [success], whatever its HTTP status, and 500 otherwise.  When
    the log line cannot print them, the route answers 500 without asking
    the service, and the entry stays all the same. *)
Theorem registration_recorded_even_if_save_fails
    (W : World) (req : ExpressRequest) (rt : Runtime) :
  registration_accepted req = true ->
  let r := trigger_token_fetch W req rt in
  this (snd r) = this (recorded req rt)
  /\ (registration_printable req = true ->
      getLocalIPv4 W <> Suspended ->
      snd r = after_registration W req rt
      /\ (save_hangs W (fetch W (registration_request W req)) = false ->
          exists reply,
            fst r = Returned reply
            /\ reply_status reply
               = if save_acknowledged (fetch W (registration_request W req))
                 then 200%N else 500%N))
  /\ (registration_printable req = false ->
      snd r = recorded req rt
      /\ exists reply, fst r = Returned reply /\ reply_status reply = 500%N).
Proof.
  intros Hacc. cbv zeta. split; [by apply trigger_token_fetch_server|]. split.
  - intros Hp Hip.
    destruct (trigger_token_fetch_accepted W req rt Hacc Hp Hip) as (o & -> & Ho).
    split; [done|]. intros Hsave. rewrite Hsave in Ho. destruct Ho as [html ->].
    eexists. split; reflexivity.
  - intros Hp. destruct (trigger_token_fetch_unprintable W req rt Hacc Hp) as [html ->].
    split; [done|]. eexists. split; reflexivity.
Qed.

Lemma registration_recorded_even_if_save_fails_witness :
  registration_accepted Scenario.registration = true
  /\ registration_printable Scenario.registration = true
  /\ save_acknowledged (fetch Scenario.offline
                          (registration_request Scenario.offline Scenario.registration)) = false
  /\ let r := trigger_token_fetch Scenario.offline Scenario.registration Scenario.connected in
     this (snd r) = this (recorded Scenario.registration Scenario.connected)
     /\ (registration_printable Scenario.registration = true ->
         getLocalIPv4 Scenario.offline <> Suspended ->
         snd r = after_registration Scenario.offline Scenario.registration Scenario.connected
         /\ (save_hangs Scenario.offline
               (fetch Scenario.offline
                  (registration_request Scenario.offline Scenario.registration)) = false ->
             exists reply,
               fst r = Returned reply
               /\ reply_status reply
                  = if save_acknowledged
                         (fetch Scenario.offline
                            (registration_request Scenario.offline Scenario.registration))
                    then 200%N else 500%N))
     /\ (registration_printable Scenario.registration = false ->
         snd r = recorded Scenario.registration Scenario.connected
         /\ exists reply, fst r = Returned reply /\ reply_status reply = 500%N).
Proof.
  split; [reflexivity|]. split; [reflexivity|]. split; [reflexivity|].
  apply (registration_recorded_even_if_save_fails Scenario.offline Scenario.registration
           Scenario.connected).
  reflexivity.
Defined.

(** X6.  Registration and resolution fit together: after an accepted
    registration, resolving the caller for the active connection returns
    the session identifier that registration derived from its request,
    for any organization id and without contacting the organization
    fallback. *)
Theorem registration_then_resolution
    (W W' : World) (req : ExpressRequest) (rt : Runtime) (organizationId : jsval) :
  registration_accepted req = true ->
  let rt' := snd (trigger_token_fetch W req rt) in
  resolveUserIdFromSessionOrOrg W' (sessionUserMap (this rt')) (active_sessionId (this rt'))
    organizationId rt'
  = (Returned (derived_session_id req), rt').
Proof.
  intros Hacc. cbv zeta.
  apply resolve_hit; [|by destruct (registration_accepted_inv req Hacc) as (_ & _ & _ & ?)].
  rewrite (trigger_token_fetch_server W req rt Hacc). cbn. apply lookup_insert_eq.
Qed.

Lemma registration_then_resolution_witness :
  registration_accepted Scenario.registration = true
  /\ let rt' := snd (trigger_token_fetch Scenario.online Scenario.registration
                       Scenario.connected) in
     resolveUserIdFromSessionOrOrg Scenario.offline (sessionUserMap (this rt'))
       (active_sessionId (this rt')) (JStr "org1") rt'
     = (Returned (derived_session_id Scenario.registration), rt').
Proof.
  split; [reflexivity|].
  apply (registration_then_resolution Scenario.online Scenario.offline Scenario.registration
           Scenario.connected (JStr "org1")).
  reflexivity.
Defined.

(** X7.  The registry holds one entry per connection, not per caller: of
    two accepted registrations made while the same connection is the
    active one, only the second survives; the first caller's session
    identifier is overwritten. *)
Theorem second_registration_overwrites_first
    (W1 W2 : World) (req1 req2 : ExpressRequest) (rt : Runtime) :
  registration_accepted req1 = true ->
  registration_accepted req2 = true ->
  sessionUserMap
    (this (snd (trigger_token_fetch W2 req2 (snd (trigger_token_fetch W1 req1 rt)))))
  = <[active_sessionId (this rt) := derived_session_id req2]> (sessionUserMap (this rt)).
Proof.
  intros H1 H2.
  rewrite (trigger_token_fetch_server W2 req2 _ H2). cbn.
  rewrite (trigger_token_fetch_server W1 req1 rt H1). cbn.
  apply insert_insert_eq.
Qed.

Lemma second_registration_overwrites_first_witness :
  registration_accepted Scenario.registration = true
  /\ registration_accepted Scenario2.registration2 = true
  /\ sessionUserMap
       (this (snd (trigger_token_fetch Scenario.online Scenario2.registration2
                     (snd (trigger_token_fetch Scenario.online Scenario.registration
                             Scenario.connected)))))
     = <[active_sessionId (this Scenario.connected)
         := derived_session_id Scenario2.registration2]>
         (sessionUserMap (this Scenario.connected)).
Proof.
  split; [reflexivity|]. split; [reflexivity|].
  apply (second_registration_overwrites_first Scenario.online Scenario.online
           Scenario.registration Scenario2.registration2 Scenario.connected);
    reflexivity.
Defined.

(** X8.  What GET /save-trigger-token-fetch finds after an accepted
    registration: asked for the id of the connection that was active, it
    reports the session identifier of the registration as [userId]; asked
    for any other id, the header value of the registration included, it
    answers as it did before the registration. *)
Theorem lookup_after_registration
    (W : World) (req : ExpressRequest) (rt : Runtime) (q : string) :
  registration_accepted req = true ->
  q <> "" ->
  save_trigger_token_fetch (JStr q) (this (snd (trigger_token_fetch W req rt)))
  = if decide (active_sessionId (this rt) = Some q)
    then LookupFound (JStr q) (derived_session_id req)
    else save_trigger_token_fetch (JStr q) (this rt).
Proof.
  intros Hacc Hq. rewrite (trigger_token_fetch_server W req rt Hacc).
  unfold save_trigger_token_fetch. cbn.
  destruct (String.eqb_spec q ""); [done|]. cbn.
  rewrite lookup_insert. case_decide as Hk; cbn.
  - destruct (registration_accepted_inv req Hacc) as (_ & _ & _ & ->). done.
  - done.
Qed.

Lemma lookup_after_registration_witness :
  registration_accepted Scenario.registration = true
  /\ "abc" <> ""
  /\ save_trigger_token_fetch (JStr "abc")
       (this (snd (trigger_token_fetch Scenario.online Scenario.registration
                     Scenario.connected)))
     = if decide (active_sessionId (this Scenario.connected) = Some "abc")
       then LookupFound (JStr "abc") (derived_session_id Scenario.registration)
       else save_trigger_token_fetch (JStr "abc") (this Scenario.connected).
Proof.
  split; [reflexivity|]. split; [done|].
  apply (lookup_after_registration Scenario.online Scenario.registration Scenario.connected
           "abc"); [reflexivity|done].
Defined.

(* ===================================================================== *)
(** ** How far a tool call can go                                         *)
(* ===================================================================== *)

Lemma bounded_weaken {A} nf nh nf' nh' (m : M A) :
  nf <= nf' -> nh <= nh' -> bounded nf nh m -> bounded nf' nh' m.
Proof.
  intros Hf Hh Hm rt. destruct (Hm rt) as (evs & Ht & H1 & H2).
  exists evs. repeat split; [done|lia..].
Qed.

Lemma bounded_quiet {A} (m : M A) : (forall rt, snd (m rt) = rt) -> bounded 0 0 m.
Proof. intros H rt. exists []. rewrite H. cbn. by rewrite app_nil_r. Qed.

Lemma bounded_ret {A} (a : A) : bounded 0 0 (ret a).
Proof. by apply bounded_quiet. Qed.

Lemma bounded_throw {A} (e : jserror) : bounded 0 0 (@throw A e).
Proof. by apply bounded_quiet. Qed.

Lemma bounded_lift {A} (r : A + jserror) : bounded 0 0 (lift r).
Proof. destruct r; [apply bounded_ret|apply bounded_throw]. Qed.

Lemma bounded_await {A} (o : outcome A) : bounded 0 0 (await o).
Proof. by apply bounded_quiet. Qed.

Lemma bounded_template v : bounded 0 0 (template v).
Proof. apply bounded_quiet. intros rt. unfold template. by destruct (template_error v). Qed.

Lemma bounded_get_this : bounded 0 0 get_this.
Proof. by apply bounded_quiet. Qed.

Lemma bounded_modify_this f : bounded 0 0 (modify_this f).
Proof. intros rt. exists []. cbn. by rewrite app_nil_r. Qed.

Lemma bounded_log_fetch r : bounded 1 0 (log (EvFetch r)).
Proof. intros rt. exists [EvFetch r]. cbn. auto. Qed.

Lemma bounded_log_handler tool args token : bounded 0 1 (log (EvHandler tool args token)).
Proof. intros rt. exists [EvHandler tool args token]. cbn. auto. Qed.

Lemma bounded_bind {A B} a b a' b' (c : M A) (k : A -> M B) :
  bounded a b c -> (forall x, bounded a' b' (k x)) -> bounded (a + a') (b + b') (bind c k).
Proof.
  intros Hc Hk rt. unfold bind.
  destruct (Hc rt) as (evs & Ht & H1 & H2).
  destruct (c rt) as [[x|e|] rt1]; cbn in *.
  - destruct (Hk x rt1) as (evs' & Ht' & H1' & H2').
    exists (evs ++ evs').
    rewrite Ht', Ht, app_assoc. split; [done|].
    unfold fetch_events, handler_events in *.
    rewrite !List.filter_app, !length_app. lia.
  - exists evs. repeat split; [done|lia..].
  - exists evs. repeat split; [done|lia..].
Qed.

Lemma bounded_try_catch {A} a b a' b' (body : M A) (handler : jserror -> M A) :
  bounded a b body -> (forall e, bounded a' b' (handler e)) ->
  bounded (a + a') (b + b') (try_catch body handler).
Proof.
  intros Hc Hk rt. unfold try_catch.
  destruct (Hc rt) as (evs & Ht & H1 & H2).
  destruct (body rt) as [[x|e|] rt1]; cbn in *.
  - exists evs. repeat split; [done|lia..].
  - destruct (Hk e rt1) as (evs' & Ht' & H1' & H2').
    exists (evs ++ evs').
    rewrite Ht', Ht, app_assoc. split; [done|].
    unfold fetch_events, handler_events in *.
    rewrite !List.filter_app, !length_app. lia.
  - exists evs. repeat split; [done|lia..].
Qed.

(** Computations that neither fetch nor call a handler. *)
Ltac quiet :=
  repeat first
    [ apply bounded_ret | apply bounded_throw | apply bounded_lift
    | apply bounded_await | apply bounded_template
    | apply bounded_get_this | apply bounded_modify_this
    | apply (bounded_bind 0 0 0 0); [|intros ?]
    | apply (bounded_try_catch 0 0 0 0); [|intros ?]
    | match goal with
      | |- bounded _ _ (if ?b then _ else _) => destruct b
      | |- bounded _ _ (match ?x with _ => _ end) => destruct x
      end ].

Lemma bounded_do_fetch W r : bounded 1 0 (do_fetch W r).
Proof.
  unfold do_fetch. apply (bounded_bind 1 0 0 0); [apply bounded_log_fetch|].
  intros _. quiet.
Qed.

Lemma bounded_res_json W res : bounded 0 0 (res_json W res).
Proof. unfold res_json. quiet. Qed.

Lemma bounded_call_slice v : bounded 0 0 (call_slice v).
Proof. unfold call_slice. quiet. Qed.

Lemma bounded_fetchLatest W cookie : bounded 1 0 (fetchLatestFacebookAccessToken W cookie).
Proof.
  unfold fetchLatestFacebookAccessToken.
  apply (bounded_try_catch 1 0 0 0); [|intros ?; quiet].
  apply (bounded_bind 1 0 0 0); [apply bounded_do_fetch|]. intros res.
  destruct (negb (ok res)); [quiet|].
  apply (bounded_bind 0 0 0 0); [apply bounded_res_json|]. intros data.
  apply (bounded_bind 0 0 0 0); [quiet|]. intros success.
  destruct (_ && _); [|quiet].
  apply (bounded_bind 0 0 0 0); [quiet|]. intros _.
  apply (bounded_bind 0 0 0 0); [quiet|]. intros s. apply bounded_call_slice.
Qed.

Lemma bounded_resolveUserId W m sid org :
  bounded 1 0 (resolveUserIdFromSessionOrOrg W m sid org).
Proof.
  unfold resolveUserIdFromSessionOrOrg.
  destruct (truthy (default JUndefined (m !! sid))).
  { apply (bounded_weaken 0 0); [lia..|quiet]. }
  destruct (negb (truthy org)).
  { apply (bounded_weaken 0 0); [lia..|quiet]. }
  apply (bounded_bind 0 0 1 0); [apply bounded_template|]. intros _.
  apply (bounded_bind 1 0 0 0); [apply bounded_do_fetch|]. intros res.
  destruct (negb (ok res)); [quiet|].
  apply (bounded_bind 0 0 0 0); [apply bounded_res_json|]. intros data. quiet.
Qed.

Lemma bounded_askOrganizationId W : bounded 0 0 (askOrganizationId W).
Proof. apply bounded_quiet. intros rt. by rewrite askOrganizationId_throws. Qed.

Lemma bounded_resolve_credential W args : bounded 2 0 (resolve_credential W args).
Proof.
  unfold resolve_credential.
  apply (bounded_bind 0 0 2 0); [quiet|]. intros organization_id.
  apply (bounded_bind 0 0 2 0).
  { destruct (negb (truthy organization_id)); [|quiet].
    apply (bounded_bind 0 0 0 0); [apply bounded_askOrganizationId|]. intros asked. quiet. }
  intros organizationId.
  apply (bounded_bind 0 0 2 0); [quiet|]. intros s.
  apply (bounded_bind 1 0 1 0); [apply bounded_resolveUserId|]. intros userId.
  apply bounded_fetchLatest.
Qed.

Lemma bounded_call_handler tool handler args : bounded 0 1 (call_handler tool handler args).
Proof.
  unfold call_handler.
  apply (bounded_bind 0 0 0 1); [quiet|]. intros s.
  apply (bounded_bind 0 1 0 0); [apply bounded_log_handler|]. intros _. quiet.
Qed.

Lemma bounded_dispatch W toolName args : bounded 0 1 (dispatch W toolName args).
Proof.
  unfold dispatch.
  repeat match goal with
         | |- bounded _ _ (if ?b then _ else _) => destruct b
         | |- bounded _ _ (call_handler _ _ _) => apply bounded_call_handler
         end;
    (apply (bounded_weaken 0 0); [lia..|quiet]).
Qed.

Lemma bounded_executeToolCall W toolName args : bounded 2 1 (executeToolCall W toolName args).
Proof.
  unfold executeToolCall.
  apply (bounded_bind 2 0 0 1); [apply bounded_resolve_credential|].
  intros _. apply bounded_dispatch.
Qed.

(** *** Settling *)

Lemma settles_ret {A} (a : A) : settles (ret a).
Proof. by intros rt. Qed.

Lemma settles_throw {A} (e : jserror) : settles (@throw A e).
Proof. by intros rt. Qed.

Lemma settles_lift {A} (r : A + jserror) : settles (lift r).
Proof. by destruct r; intros rt. Qed.

Lemma settles_template v : settles (template v).
Proof. unfold template. by destruct (template_error v); intros rt. Qed.

Lemma settles_get_this : settles get_this.
Proof. by intros rt. Qed.

Lemma settles_modify_this f : settles (modify_this f).
Proof. by intros rt. Qed.

Lemma settles_log e : settles (log e).
Proof. by intros rt. Qed.

Lemma settles_await {A} (o : outcome A) : o <> Suspended -> settles (await o).
Proof. by intros H rt. Qed.

Lemma settles_bind {A B} (c : M A) (k : A -> M B) :
  settles c -> (forall x, settles (k x)) -> settles (bind c k).
Proof.
  intros Hc Hk rt. unfold bind. specialize (Hc rt).
  destruct (c rt) as [[x|e|] rt1]; cbn in *; [apply Hk|done..].
Qed.

Lemma settles_try_catch {A} (body : M A) (handler : jserror -> M A) :
  settles body -> (forall e, settles (handler e)) -> settles (try_catch body handler).
Proof.
  intros Hc Hk rt. unfold try_catch. specialize (Hc rt).
  destruct (body rt) as [[x|e|] rt1]; cbn in *; [done|apply Hk|done].
Qed.

Ltac settle_step :=
  match goal with
  | |- settles (bind _ _) => apply settles_bind; [|intros ?]
  | |- settles (try_catch _ _) => apply settles_try_catch; [|intros ?]
  | |- settles (ret _) => apply settles_ret
  | |- settles (throw _) => apply settles_throw
  | |- settles (lift _) => apply settles_lift
  | |- settles (template _) => apply settles_template
  | |- settles get_this => apply settles_get_this
  | |- settles (modify_this _) => apply settles_modify_this
  | |- settles (log _) => apply settles_log
  | |- settles (if ?b then _ else _) => destruct b
  end.

Section Responsive.

Variable W : World.
Hypothesis W_responsive : responsive W.

Lemma settles_do_fetch r : settles (do_fetch W r).
Proof.
  unfold do_fetch. apply settles_bind; [apply settles_log|intros _].
  destruct W_responsive as (Hf & _ & _). specialize (Hf r).
  destruct (fetch W r); [apply settles_ret|apply settles_throw|done].
Qed.

Lemma settles_res_json res : settles (res_json W res).
Proof.
  unfold res_json. destruct (json_body res) eqn:Hb; [apply settles_ret|].
  destruct W_responsive as (_ & Hj & _). specialize (Hj res Hb).
  destruct (json_failure W res); [apply settles_throw|done].
Qed.

Lemma settles_call_slice v : settles (call_slice v).
Proof. unfold call_slice. destruct v; repeat settle_step. Qed.

Lemma settles_fetchLatest cookie : settles (fetchLatestFacebookAccessToken W cookie).
Proof.
  unfold fetchLatestFacebookAccessToken.
  repeat first [ apply settles_do_fetch | apply settles_res_json
               | apply settles_call_slice | settle_step ].
Qed.

Lemma settles_resolveUserId m sid org : settles (resolveUserIdFromSessionOrOrg W m sid org).
Proof.
  unfold resolveUserIdFromSessionOrOrg.
  repeat first [ apply settles_do_fetch | apply settles_res_json | settle_step ].
Qed.

Lemma settles_askOrganizationId : settles (askOrganizationId W).
Proof. intros rt. by rewrite askOrganizationId_throws. Qed.

Lemma settles_resolve_credential args : settles (resolve_credential W args).
Proof.
  unfold resolve_credential.
  repeat first [ apply settles_askOrganizationId | apply settles_resolveUserId
               | apply settles_fetchLatest | settle_step ].
Qed.

Lemma settles_dispatch toolName args : settles (dispatch W toolName args).
Proof.
  destruct (handled toolName) eqn:Hh.
  - destruct toolName as [| |b|n|name|xs|fields]; try done. unfold handled in Hh.
    destruct (in_catalogue name) eqn:Hc.
    + intros rt. rewrite (dispatch_catalogue W name args rt Hc). cbn.
      destruct W_responsive as (_ & _ & Hh'). apply Hh'.
    + cbn [orb] in Hh. apply orb_true_iff in Hh as [Hh|Hh];
        apply String.eqb_eq in Hh; subst name; by intros rt.
  - intros rt. by rewrite dispatch_unhandled.
Qed.

Lemma settles_executeToolCall toolName args : settles (executeToolCall W toolName args).
Proof.
  unfold executeToolCall. apply settles_bind; [apply settles_resolve_credential|].
  intros _. apply settles_dispatch.
Qed.

End Responsive.

Lemma online_responsive : responsive Scenario.online.
Proof.
  split; [|split].
  - intros r. cbn. unfold Scenario.service. by repeat case_match.
  - done.
  - intros name args token. unfold handler_of. by repeat case_match.
Qed.

(** X9.  A tool call never waits for the user: in a world whose awaited
    external calls all settle (every [fetch] with its body, every tool
    handler), it returns or throws, for every tool name, arguments and
    state.  The only wait of its own that the code has, the wait for the
    organization id, is never reached. *)
Theorem executeToolCall_always_settles
    (W : World) (toolName args : jsval) (rt : Runtime) :
  responsive W ->
  (exists v, fst (executeToolCall W toolName args rt) = Returned v)
  \/ (exists e, fst (executeToolCall W toolName args rt) = Threw e).
Proof.
  intros HW. pose proof (settles_executeToolCall W HW toolName args rt) as Hs.
  destruct (fst (executeToolCall W toolName args rt)); eauto. done.
Qed.

Lemma executeToolCall_always_settles_witness :
  responsive Scenario.online
  /\ ((exists v, fst (executeToolCall Scenario.online (JStr "facebook_list_ad_accounts")
                        Scenario.with_org1 Scenario.connected) = Returned v)
      \/ (exists e, fst (executeToolCall Scenario.online (JStr "facebook_list_ad_accounts")
                           Scenario.with_org1 Scenario.connected) = Threw e)).
Proof.
  split; [apply online_responsive|].
  apply (executeToolCall_always_settles Scenario.online (JStr "facebook_list_ad_accounts")
           Scenario.with_org1 Scenario.connected).
  apply online_responsive.
Defined.

(** X10.  The interaction log only grows during a tool call, and one call
    adds at most two outbound requests (the organization fallback and the
    token request) and at most one handler invocation: nothing is
    retried. *)
Theorem executeToolCall_interaction_bound
    (W : World) (toolName args : jsval) (rt : Runtime) :
  exists evs,
    trace (snd (executeToolCall W toolName args rt)) = trace rt ++ evs
    /\ length (fetch_events evs) <= 2
    /\ length (handler_events evs) <= 1.
Proof. apply bounded_executeToolCall. Qed.

(** X11.  A tool call never touches the session registry nor the active
    connection, whatever the world answers. *)
Theorem executeToolCall_keeps_registry_and_connection
    (W : World) (toolName args : jsval) (rt : Runtime) :
  sessionUserMap (this (snd (executeToolCall W toolName args rt))) = sessionUserMap (this rt)
  /\ activeSseTransport (this (snd (executeToolCall W toolName args rt)))
     = activeSseTransport (this rt).
Proof.
  by apply (preserves_executeToolCall
              (fun s => sessionUserMap s = sessionUserMap (this rt)
                        /\ activeSseTransport s = activeSseTransport (this rt))).
Qed.

Lemma dispatch_events W toolName args rt :
  trace (snd (dispatch W toolName args rt)) = trace rt
  \/ exists name,
       toolName = JStr name /\ in_catalogue name = true
       /\ trace (snd (dispatch W toolName args rt))
          = trace rt ++ [EvHandler name args (currentFacebookAccessToken (this rt))].
Proof.
  destruct (handled toolName) eqn:Hh.
  - destruct toolName as [| |b|n|name|xs|fields]; try done. unfold handled in Hh.
    destruct (in_catalogue name) eqn:Hc.
    + right. exists name. rewrite (dispatch_catalogue W name args rt Hc). done.
    + left. cbn [orb] in Hh. apply orb_true_iff in Hh as [Hh|Hh];
        apply String.eqb_eq in Hh; subst name; reflexivity.
  - left. by rewrite dispatch_unhandled.
Qed.

Lemma token_then_dispatch W id toolName args rt :
  exists evs,
    trace (snd (bind (fetchLatestFacebookAccessToken W id)
                  (fun _ => dispatch W toolName args) rt))
    = trace rt ++ EvFetch (token_request W id) :: evs
    /\ (evs = []
        \/ exists name tok,
             toolName = JStr name /\ in_catalogue name = true
             /\ service_token (fetch W (token_request W id)) = Some tok
             /\ evs = [EvHandler name args tok]).
Proof.
  unfold bind.
  destruct (service_token (fetch W (token_request W id))) as [tok|] eqn:Hs.
  - rewrite (fetchLatest_some W id rt tok Hs).
    destruct (slice_outcome tok) as [[]|e|]; [|exists []; cbn; auto..].
    match goal with |- context [dispatch W toolName args ?rt2] =>
      destruct (dispatch_events W toolName args rt2) as [Ht|(name & -> & Hc & Ht)]
    end; rewrite Ht; cbn.
    + exists []. auto.
    + exists [EvHandler name args tok]. rewrite <- app_assoc. split; [done|].
      right. by exists name, tok.
  - destruct (fetchLatest_none W id rt Hs) as (o & -> & Ho). exists [].
    destruct (hangs W _); [subst o|destruct Ho as [e ->]]; cbn; auto.
Qed.

Lemma executeToolCall_with_org W toolName args org rt :
  get_prop args "organization_id" = inl org -> truthy org = true ->
  executeToolCall W toolName args rt
  = bind (resolveUserIdFromSessionOrOrg W (sessionUserMap (this rt))
            (active_sessionId (this rt)) org)
      (fun id => bind (fetchLatestFacebookAccessToken W id)
                   (fun _ => dispatch W toolName args)) rt.
Proof.
  intros Hget Ho. unfold executeToolCall, resolve_credential.
  rewrite Hget. unfold bind, lift, ret, get_this. rewrite Ho. cbn [negb].
  destruct (resolveUserIdFromSessionOrOrg _ _ _ _ rt) as [[id|e|] rt1]; [|done..].
  by destruct (fetchLatestFacebookAccessToken W id rt1) as [[[]|e|] rt2].
Qed.

Lemma executeToolCall_unreadable_args W toolName args e rt :
  get_prop args "organization_id" = inr e ->
  executeToolCall W toolName args rt = (Threw e, rt).
Proof.
  intros Hget. unfold executeToolCall, resolve_credential. by rewrite Hget.
Qed.

(** The new events of a tool call: an optional request to the
    organization fallback, then an optional token request, then an
    optional handler invocation that uses the token just fetched. *)
Lemma executeToolCall_events W toolName args rt :
  exists pre evs,
    trace (snd (executeToolCall W toolName args rt)) = trace rt ++ pre ++ evs
    /\ (pre = [] \/ exists org, pre = [EvFetch (fallback_request W org)])
    /\ (evs = []
        \/ exists id,
             evs = [EvFetch (token_request W id)]
             \/ exists name tok,
                  toolName = JStr name /\ in_catalogue name = true
                  /\ service_token (fetch W (token_request W id)) = Some tok
                  /\ evs = [EvFetch (token_request W id); EvHandler name args tok]).
Proof.
  destruct (get_prop args "organization_id") as [org|e] eqn:Hget.
  2:{ rewrite (executeToolCall_unreadable_args _ _ _ e rt Hget).
      exists [], []. cbn. rewrite app_nil_r. auto. }
  destruct (truthy org) eqn:Ho.
  2:{ rewrite (missing_organization_id_fails _ _ _ org rt Hget Ho).
      exists [], []. cbn. rewrite app_nil_r. auto. }
  rewrite (executeToolCall_with_org _ _ _ org rt Hget Ho). unfold bind at 1.
  destruct (truthy (default JUndefined (sessionUserMap (this rt) !! active_sessionId (this rt))))
    eqn:Hhit.
  - destruct (sessionUserMap (this rt) !! active_sessionId (this rt)) as [u|] eqn:Hm;
      [|done]. cbn in Hhit.
    rewrite (resolve_hit W _ _ org rt u Hm Hhit).
    destruct (token_then_dispatch W u toolName args rt) as (evs & Ht & Hevs).
    exists [], (EvFetch (token_request W u) :: evs). cbn. split; [done|]. split; [auto|].
    right. exists u. destruct Hevs as [->|(name & tok & ? & ? & ? & ->)]; [auto|].
    right. by exists name, tok.
  - rewrite (resolve_miss W _ _ org rt Hhit Ho).
    destruct (template_error org).
    { exists [], []. cbn. rewrite app_nil_r. auto. }
    destruct (fallback_outcome _ _) as [id|e|].
    + destruct (token_then_dispatch W id toolName args
                  (push_event (EvFetch (fallback_request W org)) rt)) as (evs & Ht & Hevs).
      exists [EvFetch (fallback_request W org)], (EvFetch (token_request W id) :: evs).
      rewrite Ht. cbn. rewrite <- app_assoc. split; [done|]. split; [eauto|].
      right. exists id. destruct Hevs as [->|(name & tok & ? & ? & ? & ->)]; [auto|].
      right. by exists name, tok.
    + exists [EvFetch (fallback_request W org)], []. cbn. split; [done|]. eauto.
    + exists [EvFetch (fallback_request W org)], []. cbn. split; [done|]. eauto.
Qed.

(** X12.  A handler only ever runs with the token fetched during the same
    call and with the caller's arguments unchanged: if a tool call adds a
    handler invocation to the log, the tool is a catalogue tool named by
    the call, the arguments are those of the call, and the token is the
    one the token endpoint returned to a request logged earlier in the
    same call.  A token cached by an earlier call is never what a handler
    receives. *)
Theorem handler_gets_token_of_this_call
    (W : World) (toolName args : jsval) (rt : Runtime)
    (evs : list Event) (tool : string) (a tok : jsval) :
  trace (snd (executeToolCall W toolName args rt)) = trace rt ++ evs ->
  In (EvHandler tool a tok) evs ->
  toolName = JStr tool /\ in_catalogue tool = true /\ a = args
  /\ exists cookie,
       service_token (fetch W (token_request W cookie)) = Some tok
       /\ In (EvFetch (token_request W cookie)) evs.
Proof.
  intros Ht Hin.
  destruct (executeToolCall_events W toolName args rt) as (pre & evs' & Ht' & Hpre & Hevs).
  rewrite Ht in Ht'. apply app_inv_head in Ht'. subst evs.
  apply in_app_or in Hin as [Hin|Hin].
  { destruct Hpre as [->|[org ->]]; cbn in Hin; [done|]. by destruct Hin. }
  destruct Hevs as [->|[id [->|(name & tok' & -> & Hc & Hs & ->)]]]; cbn in Hin.
  - done.
  - by destruct Hin.
  - destruct Hin as [Hin|[Hin|[]]]; [done|]. injection Hin as <- <- <-.
    repeat split; try done. exists id. split; [done|].
    apply in_or_app. right. cbn. auto.
Qed.

Lemma handler_gets_token_of_this_call_witness :
  trace (snd (executeToolCall Scenario.online (JStr "facebook_list_ad_accounts")
                Scenario.with_org1 Scenario.registered_quiet))
  = trace Scenario.registered_quiet
    ++ [EvFetch (token_request Scenario.online (JStr "abc"));
        EvHandler "facebook_list_ad_accounts" Scenario.with_org1 (JStr "SERVICE_TOKEN")]
  /\ In (EvHandler "facebook_list_ad_accounts" Scenario.with_org1 (JStr "SERVICE_TOKEN"))
       [EvFetch (token_request Scenario.online (JStr "abc"));
        EvHandler "facebook_list_ad_accounts" Scenario.with_org1 (JStr "SERVICE_TOKEN")]
  /\ (JStr "facebook_list_ad_accounts" = JStr "facebook_list_ad_accounts"
      /\ in_catalogue "facebook_list_ad_accounts" = true
      /\ Scenario.with_org1 = Scenario.with_org1
      /\ exists cookie,
           service_token (fetch Scenario.online (token_request Scenario.online cookie))
           = Some (JStr "SERVICE_TOKEN")
           /\ In (EvFetch (token_request Scenario.online cookie))
                [EvFetch (token_request Scenario.online (JStr "abc"));
                 EvHandler "facebook_list_ad_accounts" Scenario.with_org1
                   (JStr "SERVICE_TOKEN")]).
Proof.
  split; [vm_compute; reflexivity|].
  split; [right; left; reflexivity|].
  apply (handler_gets_token_of_this_call Scenario.online (JStr "facebook_list_ad_accounts")
           Scenario.with_org1 Scenario.registered_quiet
           [EvFetch (token_request Scenario.online (JStr "abc"));
            EvHandler "facebook_list_ad_accounts" Scenario.with_org1 (JStr "SERVICE_TOKEN")]
           "facebook_list_ad_accounts" Scenario.with_org1 (JStr "SERVICE_TOKEN")).
  - vm_compute. reflexivity.
  - right. left. reflexivity.
Defined.



(* ===================================================================== *)
(** ** The organization fallback                                           *)
(* ===================================================================== *)

(** X14.  When the registry has no (truthy) entry for the session,
    everything hangs on the organization id.  Without one, resolution
    throws at once and contacts nobody; so it does, with the TypeError of
    the conversion, for an organization id that cannot be converted to a
    string for the query string.  Otherwise it calls [fetch] exactly
    once, for the organization fallback, and changes nothing else.  When
    the answer is ok and carries a truthy [success] and [user_id],
    resolution returns the [session_id] of the answer (or throws from its
    log line, if that value cannot be converted to a string).  A failed
    request, a non-ok status, a body that is not JSON or lacks one of the
    two fields ends the resolution with an error, without a retry; when
    the service never answers, resolution stays suspended. *)
Theorem fallback_failure_is_terminal
    (W : World) (m : gmap (option string) jsval) (sid : option string)
    (organizationId : jsval) (rt : Runtime) :
  truthy (default JUndefined (m !! sid)) = false ->
  let r := resolveUserIdFromSessionOrOrg W m sid organizationId rt in
  if truthy organizationId
  then
    match template_error organizationId with
    | Some e => r = (Threw e, rt)
    | None =>
        snd r = push_event (EvFetch (fallback_request W organizationId)) rt
        /\ match fallback_session (fetch W (fallback_request W organizationId)) with
           | Some session_id =>
               fst r = match template_error session_id with
                       | Some e => Threw e
                       | None => Returned session_id
                       end
           | None =>
               if hangs W (fetch W (fallback_request W organizationId))
               then fst r = Suspended
               else exists e, fst r = Threw e
           end
    end
  else
    r = (Threw (ErrorObj "Organization ID is required for fallback resolution."), rt).
Proof.
  intros Hm. cbv zeta. destruct (truthy organizationId) eqn:Ho.
  2:{ unfold resolveUserIdFromSessionOrOrg. by rewrite Hm, Ho. }
  rewrite (resolve_miss W m sid organizationId rt Hm Ho).
  destruct (template_error organizationId); [done|]. split; [done|].
  unfold fallback_session, fallback_outcome, hangs. cbn.
  destruct (fetch W (fallback_request W organizationId)) as [res|msg|]; [|by eauto..].
  destruct (ok res); cbn; [|by eauto].
  destruct (json_body res) as [data|]; [|destruct (json_failure W res); by eauto].
  destruct data as [| |b|n|s|xs|fields]; eauto.
  destruct (truthy (assoc "success" fields) && truthy (assoc "user_id" fields)); eauto.
Qed.

Lemma fallback_failure_is_terminal_witness :
  truthy (default JUndefined
            ((∅ : gmap (option string) jsval) !! Some "t1")) = false
  /\ snd (resolveUserIdFromSessionOrOrg Scenario.online ∅ (Some "t1") (JStr "org2")
            Scenario.connected)
     = push_event (EvFetch (fallback_request Scenario.online (JStr "org2"))) Scenario.connected
  /\ exists e,
       fst (resolveUserIdFromSessionOrOrg Scenario.online ∅ (Some "t1") (JStr "org2")
              Scenario.connected) = Threw e.
Proof.
  split; [reflexivity|].
  apply (fallback_failure_is_terminal Scenario.online ∅ (Some "t1") (JStr "org2")
           Scenario.connected).
  reflexivity.
Defined.

(* ===================================================================== *)
(** ** The REST routes POST /tools/<name>                                  *)
(* ===================================================================== *)

(** On the catalogue keys the general [JSON.stringify(., null, 2)] agrees
    with the one used for [_list_tools]. *)
Lemma stringify_tool_names :
  JSON_stringify_2 (JArr (map JStr tool_names)) = JStr (JSON_stringify_names tool_names).
Proof. vm_compute. reflexivity. Qed.

Lemma executeToolCall_unhandled_never_returns W toolName args rt v :
  handled toolName = false ->
  fst (executeToolCall W toolName args rt) <> Returned v.
Proof.
  intros H. unfold executeToolCall, bind.
  destruct (resolve_credential W args rt) as [[[]|e|] rt']; cbn; try done.
  by rewrite dispatch_unhandled.
Qed.

Lemma existsb_eqb_In name names :
  existsb (String.eqb name) names = true -> In name names.
Proof.
  intros H. apply existsb_exists in H as (x & Hin & Heq).
  apply String.eqb_eq in Heq. by subst.
Qed.

(** Every routed tool name outside the catalogue is unknown to the
    switch. *)
Lemma routed_outside_catalogue_unhandled name :
  In name (rest_routes ++ rest_routes_text) ->
  in_catalogue name = false -> handled (JStr name) = false.
Proof.
  intros Hin Hc. cbn in Hin.
  repeat (destruct Hin as [<-|Hin]; [by vm_compute in Hc |- *|]).
  done.
Qed.

Lemma rest_reply W name req_body rt (wrap : jsval -> jsval) :
  In name (rest_routes ++ rest_routes_text) ->
  match fst (executeToolCall W (JStr name) req_body rt) with
  | Returned v =>
      in_catalogue name = true
      /\ fst (try_catch
                (result <- executeToolCall W (JStr name) req_body ;;
                 ret {| reply_code := 200; reply_json := Some (wrap result) |})
                (fun error =>
                   ret {| reply_code := 500;
                          reply_json := Some (JObj [("error", JStr (message_of error))]) |}) rt)
         = Returned {| reply_code := 200; reply_json := Some (wrap v) |}
  | Threw e =>
      fst (try_catch
             (result <- executeToolCall W (JStr name) req_body ;;
              ret {| reply_code := 200; reply_json := Some (wrap result) |})
             (fun error =>
                ret {| reply_code := 500;
                       reply_json := Some (JObj [("error", JStr (message_of error))]) |}) rt)
      = Returned {| reply_code := 500;
                    reply_json := Some (JObj [("error", JStr (message_of e))]) |}
  | Suspended =>
      fst (try_catch
             (result <- executeToolCall W (JStr name) req_body ;;
              ret {| reply_code := 200; reply_json := Some (wrap result) |})
             (fun error =>
                ret {| reply_code := 500;
                       reply_json := Some (JObj [("error", JStr (message_of error))]) |}) rt)
      = Suspended
  end.
Proof.
  intros Hin. unfold try_catch, bind, ret.
  pose proof (executeToolCall_unhandled_never_returns W (JStr name) req_body rt) as Hnr.
  destruct (executeToolCall W (JStr name) req_body rt) as [[v|e|] rt']; cbn in *; [|done..].
  split; [|done].
  destruct (in_catalogue name) eqn:Hc; [done|].
  by destruct (Hnr v (routed_outside_catalogue_unhandled name Hin Hc)).
Qed.

(** X15.  What a POST /tools/<name> route makes of the tool call it
    wraps.  When the call returns, the reply is 200 with the handler's
    result as it is, and the tool is one of the six catalogue tools (the
    route that wraps results into a text block is never the one that
    serves a call that returns).  When the call throws, the reply is 500
    with the message of the error; that is the reply to every request on
    the routes for facebook_login, facebook_logout, facebook_check_auth,
    facebook_get_campaign_details, facebook_get_adset_details and
    facebook_get_creative_asset_url_by_ad_id for which the call settles.
    As long as the call is pending (an external call that never
    settles), no reply is sent. *)
Theorem rest_route_succeeds_only_for_catalogue_tools
    (W : World) (name : string) (route : jsval -> M JsonReply)
    (req_body : jsval) (rt : Runtime) :
  post_tools W name = Some route ->
  match fst (executeToolCall W (JStr name) req_body rt) with
  | Returned v =>
      in_catalogue name = true
      /\ fst (route req_body rt) = Returned {| reply_code := 200; reply_json := Some v |}
  | Threw e =>
      fst (route req_body rt)
      = Returned {| reply_code := 500;
                    reply_json := Some (JObj [("error", JStr (message_of e))]) |}
  | Suspended => fst (route req_body rt) = Suspended
  end.
Proof.
  unfold post_tools.
  destruct (existsb (String.eqb name) rest_routes) eqn:H1.
  - intros [= <-]. apply existsb_eqb_In in H1.
    apply (rest_reply W name req_body rt (fun v => v)). apply in_or_app. auto.
  - destruct (existsb (String.eqb name) rest_routes_text) eqn:H2; [|done].
    intros [= <-]. apply existsb_eqb_In in H2.
    pose proof (rest_reply W name req_body rt text_content) as Hr.
    unfold rest_tool_route_text.
    destruct (fst (executeToolCall W (JStr name) req_body rt)) as [v|e|];
      [|apply Hr; apply in_or_app; auto..].
    (* a catalogue tool is always served by the first group *)
    destruct Hr as [Hc _]; [apply in_or_app; auto|].
    exfalso. cbn in H2. clear -H1 H2 Hc.
    repeat (destruct H2 as [<-|H2]; [by vm_compute in H1, Hc|]). done.
Qed.

Lemma rest_route_succeeds_only_for_catalogue_tools_witness :
  post_tools Scenario.online "facebook_get_campaign_details"
  = Some (rest_tool_route_text Scenario.online "facebook_get_campaign_details")
  /\ fst (rest_tool_route_text Scenario.online "facebook_get_campaign_details"
            Scenario.with_org1 Scenario.registered_quiet)
     = Returned {| reply_code := 500;
                   reply_json :=
                     Some (JObj [("error",
                                  JStr "Unknown tool: facebook_get_campaign_details")]) |}.
Proof.
  split; [reflexivity|].
  apply (rest_route_succeeds_only_for_catalogue_tools Scenario.online
           "facebook_get_campaign_details"
           (rest_tool_route_text Scenario.online "facebook_get_campaign_details")
           Scenario.with_org1 Scenario.registered_quiet).
  reflexivity.
Defined.

(** X16.  A request to any POST /tools/<name> route whose body has no
    (truthy) [organization_id] is answered 500 with the error
    "sendMessageToUser is not defined", and has no effect on the
    server. *)
Theorem rest_route_needs_organization_id
    (W : World) (name : string) (route : jsval -> M JsonReply)
    (req_body v : jsval) (rt : Runtime) :
  post_tools W name = Some route ->
  get_prop req_body "organization_id" = inl v ->
  truthy v = false ->
  route req_body rt
  = (Returned {| reply_code := 500;
                 reply_json := Some (JObj [("error",
                                            JStr "sendMessageToUser is not defined")]) |},
     rt).
Proof.
  unfold post_tools. intros Hroute Hget Hv.
  destruct (existsb (String.eqb name) rest_routes);
    [|destruct (existsb (String.eqb name) rest_routes_text); [|done]];
    injection Hroute as <-;
    unfold rest_tool_route, rest_tool_route_text, try_catch, bind;
    by rewrite (missing_organization_id_fails W (JStr name) req_body v rt Hget Hv).
Qed.

Lemma rest_route_needs_organization_id_witness :
  post_tools Scenario.online "facebook_list_ad_accounts"
  = Some (rest_tool_route Scenario.online "facebook_list_ad_accounts")
  /\ get_prop (JObj []) "organization_id" = inl JUndefined
  /\ truthy JUndefined = false
  /\ rest_tool_route Scenario.online "facebook_list_ad_accounts" (JObj []) Scenario.connected
     = (Returned {| reply_code := 500;
                    reply_json := Some (JObj [("error",
                                               JStr "sendMessageToUser is not defined")]) |},
        Scenario.connected).
Proof.
  split; [reflexivity|]. split; [reflexivity|]. split; [reflexivity|].
  apply (rest_route_needs_organization_id Scenario.online "facebook_list_ad_accounts"
           (rest_tool_route Scenario.online "facebook_list_ad_accounts")
           (JObj []) JUndefined Scenario.connected); reflexivity.
Defined.

(* ===================================================================== *)
(** ** The JSON-RPC handlers                                               *)
(* ===================================================================== *)

Lemma envelope_id_result id result : envelope_id (jsonrpc_result id result) = id.
Proof. reflexivity. Qed.

Lemma envelope_id_error id code message : envelope_id (jsonrpc_error id code message) = id.
Proof. reflexivity. Qed.

(** X17.  POST /test-manifest/:variant and the request id, for a body
    that is a JSON object.  Every reply the route sends is a JSON-RPC
    envelope.  A reply with status 200 (result, or "method not found")
    echoes the request's [id] unchanged; a reply with status 500
    (something threw) carries [id || 0]: a request id that is missing,
    [null], [0], [false] or the empty string comes back as [0].  The
    route sends no reply only while the tool call of a "tools/call"
    request is pending. *)
Theorem test_manifest_reply_id
    (W : World) (tools : jsval + jserror) (fields : list (string * jsval)) (rt : Runtime) :
  match fst (post_test_manifest W tools (JObj fields) rt) with
  | Returned reply =>
      exists envelope,
        reply_json reply = Some envelope
        /\ ((reply_code reply = 200%N /\ envelope_id envelope = assoc "id" fields)
            \/ (reply_code reply = 500%N
                /\ envelope_id envelope = js_or (assoc "id" fields) (JNum 0)))
  | Threw e => False
  | Suspended =>
      strict_eq_string (assoc "method" fields) "tools/call" = true
      /\ fst (call_from_message W (JObj fields) rt) = Suspended
  end.
Proof.
  unfold post_test_manifest, try_catch, bind, lift, ret, throw, template.
  cbn -[call_from_message].
  destruct (strict_eq_string (assoc "method" fields) "initialize").
  { eexists. split; [reflexivity|]. left. done. }
  destruct (strict_eq_string (assoc "method" fields) "tools/list").
  { destruct tools as [ts|e]; eexists; (split; [reflexivity|]); [left|right]; done. }
  destruct (strict_eq_string (assoc "method" fields) "tools/call").
  { destruct (call_from_message W (JObj fields) rt) as [[v|e|] rt'];
      cbn -[call_from_message]; [| |done];
      eexists; (split; [reflexivity|]); [left|right]; done. }
  destruct (template_error (assoc "method" fields)); cbn;
    eexists; (split; [reflexivity|]); [right|left]; done.
Qed.

(* ===================================================================== *)
(** ** Promises, listeners and timers of the wait for a reply             *)
(* ===================================================================== *)

Lemma settle_length q s ps : length (settle q s ps) = length ps.
Proof. unfold settle. destruct (ps !! q) as [[]|]; try done. apply length_insert. Qed.

Lemma settle_lookup_ne q p s ps : q <> p -> settle q s ps !! p = ps !! p.
Proof.
  intros Hne. unfold settle. destruct (ps !! q) as [[]|]; try done.
  by apply list_lookup_insert_ne.
Qed.

Lemma settle_keeps_settled q p s s0 ps :
  ps !! p = Some s0 -> s0 <> Pending -> settle q s ps !! p = Some s0.
Proof.
  intros Hp Hs. destruct (decide (q = p)) as [->|Hne].
  - unfold settle. rewrite Hp. by destruct s0.
  - by rewrite settle_lookup_ne.
Qed.

Lemma settle_pending p s ps : ps !! p = Some Pending -> settle p s ps !! p = Some s.
Proof.
  intros Hp. unfold settle. rewrite Hp. apply list_lookup_insert_eq.
  by eapply lookup_lt_Some.
Qed.

Lemma listeners_of_bus_off w rt rt' :
  this rt' = bus_off w (this rt) -> listeners_of rt' = remove_listener w (listeners_of rt).
Proof.
  intros H. unfold listeners_of. rewrite H. unfold bus_off.
  destruct (messageBus (this rt)) as [b|] eqn:Hb; cbn; [done|]. by rewrite Hb.
Qed.

Lemma filter_remove_listener_ne p w ls :
  w <> p ->
  List.filter (fun l => Nat.eqb (l_wait l) p) (remove_listener w ls)
  = List.filter (fun l => Nat.eqb (l_wait l) p) ls.
Proof.
  intros Hne. induction ls as [|a ls IH]; cbn; [done|].
  destruct (Nat.eqb_spec (l_wait a) w) as [Hw|Hw].
  - destruct (Nat.eqb_spec (l_wait a) p); [congruence|done].
  - cbn. by rewrite IH.
Qed.

Lemma filter_remove_listener_eq p ls :
  List.filter (fun l => Nat.eqb (l_wait l) p) (remove_listener p ls)
  = tail (List.filter (fun l => Nat.eqb (l_wait l) p) ls).
Proof.
  induction ls as [|a ls IH]; cbn; [done|].
  destruct (Nat.eqb (l_wait a) p) eqn:Hw; cbn; [done|].
  by rewrite Hw.
Qed.

Lemma existsb_remove_timer_ne p w ts :
  w <> p ->
  existsb (fun t => Nat.eqb (t_wait t) p) (remove_timer w ts)
  = existsb (fun t => Nat.eqb (t_wait t) p) ts.
Proof.
  intros Hne. induction ts as [|a ts IH]; cbn; [done|].
  destruct (Nat.eqb_spec (t_wait a) w) as [Hw|Hw].
  - destruct (Nat.eqb_spec (t_wait a) p); [congruence|done].
  - cbn. by rewrite IH.
Qed.

(** What one call of the closure does. *)
Lemma onUserMessage_match l m c rt :
  strict_eq_string m (l_session l) = true ->
  promises (onUserMessage l m c rt) = settle (l_wait l) (Fulfilled c) (promises rt)
  /\ listeners_of (onUserMessage l m c rt) = remove_listener (l_wait l) (listeners_of rt)
  /\ timers (onUserMessage l m c rt) = timers rt.
Proof.
  intros Hm. unfold onUserMessage. rewrite Hm. split; [done|]. split; [|done].
  by apply listeners_of_bus_off.
Qed.

Lemma onUserMessage_nomatch l m c rt :
  strict_eq_string m (l_session l) = false -> onUserMessage l m c rt = rt.
Proof. intros Hm. unfold onUserMessage. by rewrite Hm. Qed.

Lemma onUserMessage_other p sid l m c rt :
  l_wait l <> p -> waiting p sid rt -> waiting p sid (onUserMessage l m c rt).
Proof.
  intros Hne (Hp & Hl & Ht).
  destruct (strict_eq_string m (l_session l)) eqn:Hm;
    [|by rewrite onUserMessage_nomatch].
  destruct (onUserMessage_match l m c rt Hm) as (Hp' & Hl' & Ht').
  unfold waiting, listeners_for in *. rewrite Hp', Hl', Ht'.
  split; [by rewrite settle_lookup_ne|]. split; [|done].
  by rewrite filter_remove_listener_ne.
Qed.

Lemma onUserMessage_finished p s l m c rt :
  finished p s rt -> finished p s (onUserMessage l m c rt).
Proof.
  intros (Hp & Hs & Hl).
  destruct (strict_eq_string m (l_session l)) eqn:Hm;
    [|by rewrite onUserMessage_nomatch].
  destruct (onUserMessage_match l m c rt Hm) as (Hp' & Hl' & Ht').
  unfold finished, listeners_for in *. rewrite Hp', Hl'.
  split; [by apply settle_keeps_settled|]. split; [done|].
  destruct (decide (l_wait l = p)) as [->|Hne].
  - by rewrite filter_remove_listener_eq, Hl.
  - by rewrite filter_remove_listener_ne.
Qed.

Lemma onUserMessage_own p sid m c rt :
  strict_eq_string m sid = true ->
  waiting p sid rt ->
  finished p (Fulfilled c) (onUserMessage {| l_wait := p; l_session := sid |} m c rt).
Proof.
  intros Hm (Hp & Hl & Ht).
  destruct (onUserMessage_match {| l_wait := p; l_session := sid |} m c rt Hm)
    as (Hp' & Hl' & Ht').
  unfold finished, listeners_for in *. rewrite Hp', Hl'. cbn.
  split; [by apply settle_pending|]. split; [done|].
  by rewrite filter_remove_listener_eq, Hl.
Qed.

Lemma emit_fold_finished p s m c ls rt :
  finished p s rt ->
  finished p s (fold_left (fun r l => onUserMessage l m c r) ls rt).
Proof.
  revert rt. induction ls as [|a ls IH]; intros rt H; cbn; [done|].
  apply IH. by apply onUserMessage_finished.
Qed.

Lemma emit_fold_irrelevant p sid m c ls rt :
  strict_eq_string m sid = false ->
  (forall l, In l ls -> l_wait l = p -> l = {| l_wait := p; l_session := sid |}) ->
  waiting p sid rt ->
  waiting p sid (fold_left (fun r l => onUserMessage l m c r) ls rt).
Proof.
  intros Hm. revert rt. induction ls as [|a ls IH]; intros rt Hls H; cbn; [done|].
  apply IH; [intros l Hin; apply Hls; by right|].
  destruct (decide (l_wait a = p)) as [Hp|Hne].
  - rewrite onUserMessage_nomatch; [done|].
    rewrite (Hls a); [done|by left|done].
  - by apply onUserMessage_other.
Qed.

Lemma emit_fold_reply p sid m c ls rt :
  strict_eq_string m sid = true ->
  (forall l, In l ls -> l_wait l = p -> l = {| l_wait := p; l_session := sid |}) ->
  In {| l_wait := p; l_session := sid |} ls ->
  waiting p sid rt ->
  finished p (Fulfilled c) (fold_left (fun r l => onUserMessage l m c r) ls rt).
Proof.
  intros Hm. revert rt. induction ls as [|a ls IH]; intros rt Hls Hin H; cbn; [done|].
  destruct (decide (l_wait a = p)) as [Hp|Hne].
  - apply emit_fold_finished. rewrite (Hls a); [|by left|done].
    by apply onUserMessage_own.
  - apply IH; [intros l Hl; apply Hls; by right| |by apply onUserMessage_other].
    destruct Hin as [->|Hin]; [done|done].
Qed.

(** The listeners the bus holds when an emit starts. *)
Lemma waiting_snapshot p sid rt :
  waiting p sid rt ->
  exists b, messageBus (this rt) = Some b
            /\ In {| l_wait := p; l_session := sid |} (user_message_listeners b)
            /\ (forall l, In l (user_message_listeners b) -> l_wait l = p ->
                           l = {| l_wait := p; l_session := sid |}).
Proof.
  intros (_ & Hl & _). unfold listeners_for, listeners_of in Hl.
  destruct (messageBus (this rt)) as [b|]; [|done].
  exists b. split; [done|].
  split.
  - assert (In {| l_wait := p; l_session := sid |}
              (List.filter (fun l => Nat.eqb (l_wait l) p) (user_message_listeners b))) as H.
    { rewrite Hl. by left. }
    by apply filter_In in H as [H _].
  - intros l Hin Hp.
    assert (In l (List.filter (fun l => Nat.eqb (l_wait l) p) (user_message_listeners b))) as H.
    { apply filter_In. split; [done|]. by apply Nat.eqb_eq. }
    rewrite Hl in H. by destruct H as [<-|[]].
Qed.

Lemma deliver_irrelevant p sid e rt :
  relevant sid p e = false -> waiting p sid rt -> waiting p sid (deliver e rt).
Proof.
  intros Hr H. destruct e as [m c|w]; cbn in *.
  - destruct (waiting_snapshot p sid rt H) as (b & Hb & _ & Hls).
    unfold emit_user_message. rewrite Hb. by apply emit_fold_irrelevant.
  - apply Nat.eqb_neq in Hr. unfold fire_timer.
    destruct (existsb _ (timers rt)); [|done].
    destruct H as (Hp & Hl & Ht). unfold waiting, listeners_for in *. cbn.
    split; [by rewrite settle_lookup_ne|]. split.
    + rewrite (listeners_of_bus_off w rt); [|done]. by rewrite filter_remove_listener_ne.
    + by rewrite existsb_remove_timer_ne.
Qed.

Lemma deliver_reply p sid m c rt :
  strict_eq_string m sid = true -> waiting p sid rt ->
  finished p (Fulfilled c) (deliver (UserMessage m c) rt).
Proof.
  intros Hm H. cbn.
  destruct (waiting_snapshot p sid rt H) as (b & Hb & Hin & Hls).
  unfold emit_user_message. rewrite Hb. by apply (emit_fold_reply p sid).
Qed.

Lemma deliver_timeout p sid rt :
  waiting p sid rt ->
  finished p (Rejected (ErrorObj "User response timed out.")) (deliver (TimerExpires p) rt).
Proof.
  intros (Hp & Hl & Ht). cbn. unfold fire_timer. rewrite Ht.
  unfold finished, listeners_for in *. cbn.
  split; [by apply settle_pending|]. split; [done|].
  rewrite (listeners_of_bus_off p rt); [|done].
  by rewrite filter_remove_listener_eq, Hl.
Qed.

Lemma filter_none_below p ls :
  Forall (fun l => l_wait l < p) ls ->
  List.filter (fun l => Nat.eqb (l_wait l) p) ls = [].
Proof.
  induction 1 as [|a ls Ha _ IH]; cbn; [done|].
  destruct (Nat.eqb_spec (l_wait a) p); [lia|done].
Qed.

(** With a bus and a live session, [waitForUserResponse] starts a wait. *)
Lemma waitForUserResponse_starts t rt b sid :
  messageBus (this rt) = Some b ->
  live_session (this rt) = Some sid ->
  listeners_wf rt ->
  exists rt1,
    waitForUserResponse t rt = (Returned (length (promises rt)), rt1)
    /\ waiting (length (promises rt)) sid rt1
    /\ inbox rt1 = inbox rt.
Proof.
  intros Hb Hs Hwf. unfold waitForUserResponse. rewrite Hs, Hb.
  eexists. split; [reflexivity|]. split; [|done].
  unfold waiting, listeners_for, listeners_of. cbn.
  split; [by apply list_lookup_middle|]. split.
  - rewrite List.filter_app. cbn. rewrite Nat.eqb_refl.
    rewrite filter_none_below; [done|].
    unfold listeners_wf, listeners_of in Hwf. by rewrite Hb in Hwf.
  - rewrite existsb_app. cbn. rewrite Nat.eqb_refl. by rewrite orb_true_r.
Qed.

Lemma run_inbox_settled p evs rt s :
  promises rt !! p = Some s -> s <> Pending ->
  run_inbox p evs rt
  = (match s with
     | Fulfilled v => Returned v
     | Rejected e => Threw e
     | Pending => Suspended
     end, set_inbox evs rt).
Proof. intros Hp Hs. destruct evs; cbn; rewrite Hp; by destruct s. Qed.

Lemma listeners_for_set_inbox p evs rt :
  listeners_for p (set_inbox evs rt) = listeners_for p rt.
Proof. reflexivity. Qed.

(** The awaiting call is decided by the first event that concerns its
    wait; events that do not concern it are passed over. *)
Lemma run_inbox_waiting p sid evs rt :
  waiting p sid rt ->
  fst (run_inbox p evs rt) = wait_result (List.find (relevant sid p) evs)
  /\ (fst (run_inbox p evs rt) <> Suspended ->
      listeners_for p (snd (run_inbox p evs rt)) = []).
Proof.
  revert rt. induction evs as [|e evs IH]; intros rt H.
  - destruct H as (Hp & _). cbn. by rewrite Hp.
  - pose proof H as (Hp & _). cbn [run_inbox List.find]. rewrite Hp.
    destruct (relevant sid p e) eqn:Hr.
    + destruct e as [m c|w]; cbn in Hr.
      * destruct (deliver_reply p sid m c rt Hr H) as (Hp' & Hs' & Hl').
        rewrite (run_inbox_settled p evs _ _ Hp' Hs'). cbn. done.
      * apply Nat.eqb_eq in Hr. subst w.
        destruct (deliver_timeout p sid rt H) as (Hp' & Hs' & Hl').
        rewrite (run_inbox_settled p evs _ _ Hp' Hs'). cbn. done.
    + apply IH. by apply deliver_irrelevant.
Qed.

(** X21.  The wait for the user's reply is a race decided by the first
    event that concerns it.  On a server with an event bus and a live
    session, the awaiting call returns the content of the first message
    addressed to its session if that message is delivered before the
    wait's timer expires, throws "User response timed out." if the timer
    expires first, and stays suspended as long as neither happens;
    messages for other sessions and timers of other waits do not affect
    it. *)
Theorem wait_is_decided_by_first_relevant_event
    (t : option Z) (rt : Runtime) (b : MessageBus) (sid : string) (evs : list BusEvent) :
  messageBus (this rt) = Some b ->
  live_session (this rt) = Some sid ->
  listeners_wf rt ->
  fst (wait_and_await t (set_inbox evs rt))
  = wait_result (List.find (relevant sid (length (promises rt))) evs).
Proof.
  intros Hb Hs Hwf. unfold wait_and_await, bind.
  destruct (waitForUserResponse_starts t (set_inbox evs rt) b sid Hb Hs Hwf)
    as (rt1 & -> & Hw & Hi).
  unfold await_promise. rewrite Hi. cbn [inbox set_inbox].
  by destruct (run_inbox_waiting _ sid evs rt1 Hw) as [-> _].
Qed.

Lemma wait_is_decided_by_first_relevant_event_witness :
  let rt := Scenario.bus_attached [] in
  let evs := [UserMessage (JStr "t2") (JObj [("text", JStr "other")]);
              TimerExpires 5; Scenario.reply_org1; TimerExpires 0] in
  messageBus (this rt) = Some {| user_message_listeners := [] |}
  /\ live_session (this rt) = Some "t1"
  /\ listeners_wf rt
  /\ fst (wait_and_await None (set_inbox evs rt))
     = wait_result (List.find (relevant "t1" (length (promises rt))) evs).
Proof.
  cbv zeta. split; [reflexivity|]. split; [reflexivity|].
  split; [apply Forall_nil_2|].
  apply (wait_is_decided_by_first_relevant_event None (Scenario.bus_attached [])
           {| user_message_listeners := [] |} "t1").
  - reflexivity.
  - reflexivity.
  - apply Forall_nil_2.
Defined.

(** X22.  The wait leaves no listener behind: whenever the awaiting call
    has returned or thrown, by reply or by timeout, no listener of that
    wait is registered on the bus any more. *)
Theorem settled_wait_leaves_no_listener
    (t : option Z) (rt : Runtime) (b : MessageBus) (sid : string) (evs : list BusEvent) :
  messageBus (this rt) = Some b ->
  live_session (this rt) = Some sid ->
  listeners_wf rt ->
  fst (wait_and_await t (set_inbox evs rt)) <> Suspended ->
  listeners_for (length (promises rt)) (snd (wait_and_await t (set_inbox evs rt))) = [].
Proof.
  intros Hb Hs Hwf. unfold wait_and_await, bind.
  destruct (waitForUserResponse_starts t (set_inbox evs rt) b sid Hb Hs Hwf)
    as (rt1 & -> & Hw & Hi).
  unfold await_promise. rewrite Hi. cbn [inbox set_inbox].
  by destruct (run_inbox_waiting _ sid evs rt1 Hw) as [_ H].
Qed.

Lemma settled_wait_leaves_no_listener_witness :
  let rt := Scenario.bus_attached [] in
  let evs := [TimerExpires 0; Scenario.reply_org1] in
  messageBus (this rt) = Some {| user_message_listeners := [] |}
  /\ live_session (this rt) = Some "t1"
  /\ listeners_wf rt
  /\ fst (wait_and_await None (set_inbox evs rt)) <> Suspended
  /\ listeners_for (length (promises rt)) (snd (wait_and_await None (set_inbox evs rt))) = [].
Proof.
  cbv zeta. split; [reflexivity|]. split; [reflexivity|].
  split; [apply Forall_nil_2|]. split; [vm_compute; discriminate|].
  apply (settled_wait_leaves_no_listener None (Scenario.bus_attached [])
           {| user_message_listeners := [] |} "t1").
  - reflexivity.
  - reflexivity.
  - apply Forall_nil_2.
  - vm_compute. discriminate.
Defined.

Lemma remove_listener_Forall (P : Listener -> Prop) w ls :
  Forall P ls -> Forall P (remove_listener w ls).
Proof.
  induction 1 as [|a ls Ha Hls IH]; cbn; [done|].
  destruct (Nat.eqb (l_wait a) w); [done|]. by constructor.
Qed.

Lemma onUserMessage_wf l m c rt :
  listeners_wf rt -> listeners_wf (onUserMessage l m c rt).
Proof.
  intros Hwf. destruct (strict_eq_string m (l_session l)) eqn:Hm;
    [|by rewrite onUserMessage_nomatch].
  destruct (onUserMessage_match l m c rt Hm) as (Hp' & Hl' & _).
  unfold listeners_wf. rewrite Hp', Hl', settle_length.
  by apply remove_listener_Forall.
Qed.

(** Listeners never outlive the bookkeeping: starting a wait and
    delivering a message or a timer expiry both keep the property that
    every listener on the bus belongs to a promise that exists, which is
    what makes the id of a new wait fresh. *)
Theorem listeners_stay_well_formed (t : option Z) (e : BusEvent) (rt : Runtime) :
  listeners_wf rt ->
  listeners_wf (snd (waitForUserResponse t rt)) /\ listeners_wf (deliver e rt).
Proof.
  intros Hwf. split.
  - unfold waitForUserResponse, listeners_wf, listeners_of in *.
    destruct (live_session (this rt)) as [sid|]; cbn.
    + destruct (messageBus (this rt)) as [b|] eqn:Hb; cbn.
      * rewrite length_app. cbn. apply Forall_app. split.
        -- eapply Forall_impl; [exact Hwf|]. cbn. intros; lia.
        -- constructor; [cbn; lia|done].
      * by rewrite Hb.
    + destruct (messageBus (this rt)) as [b|]; [|done].
      rewrite length_app. eapply Forall_impl; [exact Hwf|]. cbn. intros; lia.
  - destruct e as [m c|w]; cbn.
    + unfold emit_user_message. destruct (messageBus (this rt)) as [b|]; [|done].
      generalize (user_message_listeners b). intros ls. revert rt Hwf.
      induction ls as [|l ls IH]; intros rt Hwf; cbn; [done|].
      apply IH. by apply onUserMessage_wf.
    + unfold fire_timer. destruct (existsb _ _); [|done].
      unfold listeners_wf. cbn. rewrite settle_length.
      rewrite (listeners_of_bus_off w rt); [|done].
      by apply remove_listener_Forall.
Qed.

Lemma listeners_stay_well_formed_witness :
  listeners_wf (Scenario.bus_attached [])
  /\ listeners_wf (snd (waitForUserResponse None (Scenario.bus_attached [])))
  /\ listeners_wf (deliver Scenario.reply_org1 (Scenario.bus_attached [])).
Proof.
  split; [apply Forall_nil_2|].
  apply (listeners_stay_well_formed None Scenario.reply_org1 (Scenario.bus_attached [])).
  apply Forall_nil_2.
Defined.
